(** * simpler-salesforce: schema cache, query builder and reference resolver

    A shallow embedding of [src/__init__.py].  Python values are modelled by
    the inductive [pyval]; exceptions by [outcome]; the module global
    [object_definitions], the snapshot files and the queries sent to the
    query executor by explicit state.  The three external collaborators
    (metadata provider, query executor, YAML codec) are section variables. *)

From Stdlib Require Import ZArith String Ascii List Bool Lia DecimalString.
From Stdlib Require Import Sorted Permutation.
From stdpp Require Import base gmap strings list.

Set Warnings "-register-all".

Local Open Scope Z_scope.
Local Open Scope string_scope.
Local Open Scope list_scope.

(** ** Python values *)

(** The values that JSON responses and YAML snapshots are made of.  Floats
    are left out. Dictionaries keep their insertion order. *)
Inductive pyval : Type :=
| PNone
| PBool (b : bool)
| PInt (n : Z)
| PStr (s : string)
| PList (items : list pyval)
| PDict (items : list (pyval * pyval)).

(** The contents of a Python dict, in insertion order. *)
Abbreviation dict := (list (pyval * pyval)).

Inductive exn : Type :=
| TypeError
| KeyError
| AttributeError
| IndexError.

Inductive outcome (A : Type) : Type :=
| Ok (a : A)
| Raise (e : exn).

Arguments Ok {A} a.
Arguments Raise {A} e.

(** ** A state-and-exception monad

    A computation reads and writes a state [S]; when it raises, the state
    reached so far is kept, as with in-place mutation in Python. *)
Module StateExn.

Definition M (S A : Type) : Type := S -> outcome A * S.

Definition ret {S A} (a : A) : M S A := fun s => (Ok a, s).

Definition raise {S A} (e : exn) : M S A := fun s => (Raise e, s).

Definition bind {S A B} (m : M S A) (k : A -> M S B) : M S B :=
  fun s =>
    match m s with
    | (Ok a, s') => k a s'
    | (Raise e, s') => (Raise e, s')
    end.

Definition get {S} : M S S := fun s => (Ok s, s).

Definition modify {S} (f : S -> S) : M S unit := fun s => (Ok tt, f s).

(** A computation without effects on the state. *)
Definition pure {S A} (o : outcome A) : M S A := fun s => (o, s).

(** Run a computation on the second component of a pair of states. *)
Definition on_snd {S1 S2 A} (m : M S2 A) : M (S1 * S2) A :=
  fun s => let '(o, s2) := m (snd s) in (o, (fst s, s2)).

(** [for x in xs: body x], stopping at the first exception. *)
Fixpoint for_each {S A} (body : A -> M S unit) (xs : list A) : M S unit :=
  match xs with
  | [] => ret tt
  | x :: rest => bind (body x) (fun _ => for_each body rest)
  end.

End StateExn.

Import StateExn.

Declare Scope monad_scope.
Delimit Scope monad_scope with monad.
Notation "'do' x <- m ; k" := (bind m (fun x => k))
  (at level 10, x name, m at level 100, k at level 200) : monad_scope.
Notation "'do' '_' <- m ; k" := (bind m (fun _ => k))
  (at level 10, m at level 100, k at level 200) : monad_scope.

(** Exceptions without state: the [outcome] monad. *)
Definition obind {A B} (o : outcome A) (k : A -> outcome B) : outcome B :=
  match o with
  | Ok a => k a
  | Raise e => Raise e
  end.

Declare Scope outcome_scope.
Delimit Scope outcome_scope with outcome.
Notation "'do' x <~ o ; k" := (obind o (fun x => k))
  (at level 10, x name, o at level 100, k at level 200) : outcome_scope.

(** A list comprehension whose element expression may raise. *)
Fixpoint omap {A B} (f : A -> outcome B) (xs : list A) : outcome (list B) :=
  match xs with
  | [] => Ok []
  | x :: rest =>
      (do y <~ f x; do ys <~ omap f rest; Ok (y :: ys))%outcome
  end.

(** ** Python primitives *)

(** [bool(v)]. *)
Definition truthy (v : pyval) : bool :=
  match v with
  | PNone => false
  | PBool b => b
  | PInt n => negb (n =? 0)%Z
  | PStr s => negb (String.eqb s "")
  | PList l => match l with [] => false | _ => true end
  | PDict d => match d with [] => false | _ => true end
  end.

(** Lists and dicts cannot be dict keys. *)
Definition hashable (v : pyval) : bool :=
  match v with
  | PList _ | PDict _ => false
  | _ => true
  end.

(** [k1 == k2] on hashable values; [True == 1] and [False == 0]. *)
Definition key_num (k : pyval) : option Z :=
  match k with
  | PBool b => Some (if b then 1 else 0)%Z
  | PInt n => Some n
  | _ => None
  end.

Definition key_eqb (k1 k2 : pyval) : bool :=
  match k1, k2 with
  | PNone, PNone => true
  | PStr a, PStr b => String.eqb a b
  | _, _ =>
      match key_num k1, key_num k2 with
      | Some a, Some b => (a =? b)%Z
      | _, _ => false
      end
  end.

(** [d.get(k)] on the contents of a dict; [None] when the key is absent. *)
Fixpoint dict_get (d : dict) (k : pyval) : option pyval :=
  match d with
  | [] => None
  | (k', v) :: rest => if key_eqb k' k then Some v else dict_get rest k
  end.

(** [d[k] = v]: an existing key keeps its place (and its key object), a new
    key goes last. *)
Fixpoint dict_set (d : dict) (k v : pyval) : dict :=
  match d with
  | [] => [(k, v)]
  | (k', v') :: rest =>
      if key_eqb k' k then (k', v) :: rest else (k', v') :: dict_set rest k v
  end.

(** [v.get(key, default)]: only dicts have [.get]. *)
Definition py_get (v : pyval) (key : string) (default : pyval) : outcome pyval :=
  match v with
  | PDict d => Ok (match dict_get d (PStr key) with Some x => x | None => default end)
  | _ => Raise AttributeError
  end.

(** The item at index [i] of a sequence, negative indices counting from the
    end. *)
Definition seq_index {A} (l : list A) (i : Z) : option A :=
  let n := Z.of_nat (List.length l) in
  if (0 <=? i)%Z then nth_error l (Z.to_nat i)
  else if (0 <=? n + i)%Z then nth_error l (Z.to_nat (n + i))
  else None.

(** [v[k]]. *)
Definition py_getitem (v k : pyval) : outcome pyval :=
  match v with
  | PDict d =>
      if hashable k then
        match dict_get d k with Some x => Ok x | None => Raise KeyError end
      else Raise TypeError
  | PList l =>
      match key_num k with
      | Some i => match seq_index l i with Some x => Ok x | None => Raise IndexError end
      | None => Raise TypeError
      end
  | PStr s =>
      match key_num k with
      | Some i =>
          match seq_index (list_ascii_of_string s) i with
          | Some c => Ok (PStr (String c EmptyString))
          | None => Raise IndexError
          end
      | None => Raise TypeError
      end
  | _ => Raise TypeError
  end.

(** [for x in v]: the items of a list, the characters of a string, the keys
    of a dict. *)
Definition py_iter (v : pyval) : outcome (list pyval) :=
  match v with
  | PList l => Ok l
  | PStr s => Ok (List.map (fun c => PStr (String c EmptyString)) (list_ascii_of_string s))
  | PDict d => Ok (List.map fst d)
  | _ => Raise TypeError
  end.

(** The rest of [s] after its prefix [p], if [p] is a prefix of [s]. *)
Fixpoint strip_prefix (p s : string) : option string :=
  match p, s with
  | EmptyString, _ => Some s
  | String a p', String b s' => if Ascii.eqb a b then strip_prefix p' s' else None
  | String _ _, EmptyString => None
  end.

(** [sub in s] on strings. *)
Fixpoint str_contains (sub s : string) : bool :=
  match strip_prefix sub s with
  | Some _ => true
  | None =>
      match s with
      | EmptyString => false
      | String _ rest => str_contains sub rest
      end
  end.

(** [key in v] for a string [key]: a key of a dict, an element of a list, a
    substring of a string. *)
Definition py_contains (key : string) (v : pyval) : outcome bool :=
  match v with
  | PDict d => Ok (match dict_get d (PStr key) with Some _ => true | None => false end)
  | PList l => Ok (existsb (fun x => key_eqb x (PStr key)) l)
  | PStr s => Ok (str_contains key s)
  | _ => Raise TypeError
  end.

(** [sep.join(items)]: every item must be a string. *)
Fixpoint str_items (items : list pyval) : outcome (list string) :=
  match items with
  | [] => Ok []
  | PStr s :: rest => (do ss <~ str_items rest; Ok (s :: ss))%outcome
  | _ :: _ => Raise TypeError
  end.

Fixpoint concat_sep (sep : string) (ss : list string) : string :=
  match ss with
  | [] => ""
  | [s] => s
  | s :: rest => s +:+ sep +:+ concat_sep sep rest
  end.

Definition str_join (sep : string) (items : list pyval) : outcome string :=
  (do ss <~ str_items items; Ok (concat_sep sep ss))%outcome.

(** [s.replace(old, new)] for a non-empty [old]: the occurrences of [old]
    are replaced from left to right, without overlap.  [fuel] bounds the
    number of characters left to scan. *)
Fixpoint replace_from (fuel : nat) (old new s : string) : string :=
  match fuel with
  | O => s
  | S fuel' =>
      match strip_prefix old s with
      | Some rest => new +:+ replace_from fuel' old new rest
      | None =>
          match s with
          | EmptyString => EmptyString
          | String c rest => String c (replace_from fuel' old new rest)
          end
      end
  end.

Definition str_replace (old new s : string) : string :=
  replace_from (String.length s) old new s.

(** [str(n)] for an integer. *)
Definition str_of_Z (n : Z) : string := NilZero.string_of_int (Z.to_int n).

(** [for x in xs: acc = step acc x], stopping at the first exception. *)
Fixpoint ofold {A B} (step : B -> A -> outcome B) (acc : B) (xs : list A) : outcome B :=
  match xs with
  | [] => Ok acc
  | x :: rest => (do acc' <~ step acc x; ofold step acc' rest)%outcome
  end.

(** ** Collaborators *)

(** What [svc.query_all(query)] does: it raises, or it returns a mapping
    that may hold a list under ['records']. *)
Inductive query_response : Type :=
| QRaise
| QResult (records : option (list pyval)).

Section Salesforce.

#[local] Set Default Proof Using "Type".

(** The client is taken to be there: [get_client()] returns it, or fails
    with an exception that the [try] of its caller catches.  (With no
    session and a login answer it cannot use, [get_client] ends the program
    with [exit(1)]; the collaborators below describe the answers of a
    client, so that case has no place among them.) *)

(** The metadata provider: [sf.<name>.describe()] and [sf.describe()];
    [None] stands for a raised exception. *)
Variable sf_describe : string -> option pyval.
Variable sf_describe_global : option pyval.

(** The query executor [sf.query_all]. *)
Variable sf_query_all : string -> query_response.

(** The YAML codec: the text of a snapshot file, [yaml.dump] and
    [yaml.safe_load] ([None] stands for a raised exception). *)
Variable document : Type.
Variable yaml_dump : pyval -> document.
Variable yaml_safe_load : document -> option pyval.

(** How [glob] reads a folder that is a pattern: whether the pattern
    matches the path of a folder. *)
Variable glob_match : string -> string -> bool.

(** [str(v)] for a list or a dict, as interpolated by an f-string. *)
Variable repr_container : pyval -> string.

(** [str(v)]. *)
Definition py_str (v : pyval) : string :=
  match v with
  | PNone => "None"
  | PBool true => "True"
  | PBool false => "False"
  | PInt n => str_of_Z n
  | PStr s => s
  | PList _ | PDict _ => repr_container v
  end.

(** ** State

    [object_definitions] is the module global; [files] maps a folder,
    known by its path as it is given, to the [*.yaml] files in it, each
    under its name without the extension; [queries] lists the queries
    handed to the executor, oldest first.  The file system is one that
    tells names apart by case, takes the paths it is given (none holds a
    NUL character) and accepts what is written. *)
Record world : Type := World {
  object_definitions : gmap string dict;
  files : gmap string (gmap string document);
  queries : list string
}.

Definition set_definition (name : string) (schema : dict) (w : world) : world :=
  World (<[name := schema]> (object_definitions w)) (files w) (queries w).

Definition write_yaml (folder name : string) (doc : document) (w : world) : world :=
  World (object_definitions w)
        (<[folder := <[name := doc]> (default ∅ (files w !! folder))]> (files w))
        (queries w).

Definition log_query (query : string) (w : world) : world :=
  World (object_definitions w) (files w) (queries w ++ [query]).

(** [glob.has_magic]: with one of these characters a path is a pattern. *)
Definition has_magic (path : string) : bool :=
  str_contains "*" path || str_contains "?" path || str_contains "[" path.

(** A file whose name starts with a dot is hidden from [*.yaml]. *)
Definition is_hidden (file_name : string) : bool :=
  match file_name with
  | String "." _ => true
  | _ => false
  end.

(** Whether [*.yaml] lists, in a folder, the file written for [name]: the
    file is not hidden, and it is in the folder itself, not below it. *)
Definition listed (name : string) : bool :=
  negb (is_hidden (name +:+ ".yaml")) && negb (str_contains "/" name).

(** The [*.yaml] files of one folder that [glob] lists, each with the name
    [os.path.splitext(os.path.basename(yaml_file))[0]]. *)
Definition yaml_files (folder : gmap string document) : list (string * document) :=
  List.filter (fun file => listed (fst file)) (map_to_list folder).

(** [glob.glob(os.path.join(cache_folder, '*.yaml'))]: the files of the
    folder when its path has no magic character, the files of every folder
    the path matches as a pattern when it has. *)
Definition glob_yaml (cache_folder : string) (w : world) : list (string * document) :=
  if has_magic cache_folder
  then List.concat
         (List.map (fun dir => yaml_files (snd dir))
            (List.filter (fun dir => glob_match cache_folder (fst dir))
                         (map_to_list (files w))))
  else yaml_files (default ∅ (files w !! cache_folder)).

(** ** The functions of the module *)

Definition get_all_objects : list pyval :=
  match sf_describe_global with
  | None => []
  | Some d =>
      match (do all_objects <~ py_getitem d (PStr "sobjects");
             do objs <~ py_iter all_objects;
             omap (fun obj => py_getitem obj (PStr "name")) objs)%outcome with
      | Ok names => names
      | Raise _ => []
      end
  end.

Definition run_soql_query (query : string) : M world (list pyval) :=
  (do _ <- modify (log_query query);
   ret (match sf_query_all query with
        | QRaise => []
        | QResult None => []
        | QResult (Some records) => records
        end))%monad.

(** Attribute lookup by a name that is not a string raises, like a failed
    describe call; both give [None]. *)
Definition describe_object (object_name : pyval) : pyval :=
  match object_name with
  | PStr name => match sf_describe name with Some d => d | None => PNone end
  | _ => PNone
  end.

(** The [field_info] dict built from one raw field [f]. *)
Definition field_info (f : pyval) : outcome pyval :=
  (do name <~ py_get f "name" PNone;
   do label <~ py_get f "label" PNone;
   do ty <~ py_get f "type" PNone;
   do targets <~ py_get f "referenceTo" PNone;
   do reference <~ (if truthy targets
                    then do l <~ py_get f "referenceTo" (PList []); py_getitem l (PInt 0)
                    else Ok PNone);
   do len <~ py_get f "length" PNone;
   do options <~ py_get f "picklistValues" (PList []);
   do pvs <~ py_iter options;
   do values <~ omap (fun pv => py_getitem pv (PStr "value")) pvs;
   Ok (PDict [(PStr "name", name); (PStr "label", label); (PStr "type", ty);
              (PStr "reference", reference); (PStr "length", len);
              (PStr "picklistValues", PList values)]))%outcome.

(** The list [fields] built from a describe result. *)
Definition live_fields (obj_desc : pyval) : outcome (list pyval) :=
  (do raw <~ py_get obj_desc "fields" (PList []);
   do fs <~ py_iter raw;
   omap field_info fs)%outcome.

(** [{field['name']: field for field in fields if 'name' in field}]. *)
Definition schema_add (acc : dict) (field : pyval) : outcome dict :=
  (do has_name <~ py_contains "name" field;
   if has_name : bool
   then do k <~ py_getitem field (PStr "name");
        if hashable k then Ok (dict_set acc k field) else Raise TypeError
   else Ok acc)%outcome.

Definition schema_of_fields (fields : list pyval) : outcome dict :=
  ofold schema_add [] fields.

(** The body of the loop over [object_names] (live mode). *)
Definition load_live_object (output : option string) (object_name : pyval) : M world unit :=
  let obj_desc := describe_object object_name in
  if negb (truthy obj_desc) then ret tt
  else
    match object_name with
    | PStr name =>
        (do fields <- pure (live_fields obj_desc);
         do schema <- pure (schema_of_fields fields);
         do _ <- modify (set_definition name schema);
         match output with
         | Some folder =>
             if truthy (PStr folder)
             then modify (write_yaml folder name (yaml_dump (PList fields)))
             else ret tt
         | None => ret tt
         end)%monad
    | _ => ret tt
    end.

(** [names is not None and object_name not in names]. *)
Definition filtered_out (names : option (list string)) (object_name : string) : bool :=
  match names with
  | Some l => negb (existsb (String.eqb object_name) l)
  | None => false
  end.

(** The body of the loop over [yaml_files] (snapshot mode); the [try]
    swallows every exception. *)
Definition load_cached_file (names : option (list string))
    (yaml_file : string * document) : M world unit :=
  let '(object_name, doc) := yaml_file in
  if filtered_out names object_name then ret tt
  else
    match yaml_safe_load doc with
    | Some (PList fields) =>
        match schema_of_fields fields with
        | Ok schema => modify (set_definition object_name schema)
        | Raise _ => ret tt
        end
    | _ => ret tt
    end.

(** The default of the parameter [names]. *)
Definition names_default : option (list string) := Some [].

(** [object_names = names if names else get_all_objects()]. *)
Definition object_names (names : option (list string)) : list pyval :=
  match names with
  | Some ((_ :: _) as l) => List.map PStr l
  | _ => get_all_objects
  end.

(** [object_names] is computed first, in both modes; snapshot mode does
    not use it. *)
Definition load_object_definitions (names : option (list string))
    (cache_folder output : option string) : M world unit :=
  let object_names := object_names names in
  match cache_folder with
  | None => for_each (load_live_object output) object_names
  | Some folder =>
      (do w <- get; for_each (load_cached_file names) (glob_yaml folder w))%monad
  end.

Definition get_object_fields (name : pyval) : M world (option dict) :=
  (do w <- get;
   if decide (object_definitions w = ∅) then ret None
   else if hashable name
        then match name with
             | PStr s => ret (object_definitions w !! s)
             | _ => ret None
             end
        else raise TypeError)%monad.

Definition get_object (object_name : pyval) (where_ : option string) : M world (list pyval) :=
  (do fields <- get_object_fields object_name;
   match fields with
   | Some ((_ :: _) as fields) =>
       do field_list <- pure (str_join ", " (List.map fst fields));
       let query := "SELECT " +:+ field_list +:+ " FROM " +:+ py_str object_name in
       let query :=
         match where_ with
         | Some w => if truthy (PStr w) then query +:+ " WHERE " +:+ w else query
         | None => query
         end in
       do results <- run_soql_query query;
       ret (if truthy (PList results) then results else [])
   | _ => ret []
   end)%monad.

Definition get_object_by_id (object_name id : pyval) : M world pyval :=
  (do results <- get_object object_name (Some ("Id = '" +:+ py_str id +:+ "'"));
   ret (match results with
        | first :: _ => first
        | [] => PNone
        end))%monad.

(** [{field['name']: field for field in fields.values() if field.get('reference')}]. *)
Definition reference_add (acc : dict) (field : pyval) : outcome dict :=
  (do target <~ py_get field "reference" PNone;
   if truthy target
   then do k <~ py_getitem field (PStr "name");
        if hashable k then Ok (dict_set acc k field) else Raise TypeError
   else Ok acc)%outcome.

Definition get_object_references (object_name : pyval) : M world dict :=
  (do fields <- get_object_fields object_name;
   match fields with
   | Some ((_ :: _) as fields) => pure (ofold reference_add [] (List.map snd fields))
   | _ => ret []
   end)%monad.

(** [refs is not None and field_name not in refs]. *)
Definition not_requested (refs : option (list string)) (field_name : pyval) : bool :=
  match refs with
  | Some l => negb (existsb (fun r => key_eqb field_name (PStr r)) l)
  | None => false
  end.

(** [field_name.replace('__c', '__r')]. *)
Definition resolved_key (field_name : pyval) : outcome pyval :=
  match field_name with
  | PStr s => Ok (PStr (str_replace "__c" "__r" s))
  | _ => Raise AttributeError
  end.

(** The body of the loop over [reference_fields.items()]; the state pairs
    the record [obj], which is mutated in place, with the world.  Field
    names are keys of a dict, hence hashable. *)
Definition resolve_field (refs : option (list string)) (item : pyval * pyval)
    : M (dict * world) unit :=
  let '(field_name, field_info) := item in
  (do s <- get;
   let obj := fst s in
   if truthy (default PNone (dict_get obj field_name))
   then
     if not_requested refs field_name then ret tt
     else
       do ref_obj_name <- pure (py_getitem field_info (PStr "reference"));
       do ref_id <- pure (py_getitem (PDict obj) field_name);
       do ref_data <- on_snd (get_object_by_id ref_obj_name ref_id);
       if truthy ref_data
       then
         do key <- pure (resolved_key field_name);
         modify (fun s => (dict_set (fst s) key ref_data, snd s))
       else ret tt
   else ret tt)%monad.

(** The record returned is the [obj] of the final state. *)
Definition resolve_references (object_name : pyval) (refs : option (list string))
    : M (dict * world) unit :=
  (do reference_fields <- on_snd (get_object_references object_name);
   match reference_fields with
   | [] => ret tt
   | _ => for_each (resolve_field refs) reference_fields
   end)%monad.

(** ** The resolved key never contains ["__c"] *)

Lemma strip_prefix_app (p s rest : string) :
  strip_prefix p s = Some rest -> s = p +:+ rest.
Proof.
  revert s. induction p as [|a p IH]; intros s; simpl.
  - intros [= ->]. reflexivity.
  - destruct s as [|b s]; [discriminate|].
    destruct (Ascii.eqb a b) eqn:E; [|discriminate].
    apply Ascii.eqb_eq in E. subst b. intros H. rewrite (IH _ H). reflexivity.
Qed.

Lemma strip_prefix_here (p rest : string) : strip_prefix p (p +:+ rest) = Some rest.
Proof.
  induction p as [|a p IH]; simpl; [reflexivity|].
  rewrite Ascii.eqb_refl. exact IH.
Qed.

Lemma replace_from_S (fuel : nat) (old new s : string) :
  replace_from (S fuel) old new s =
  match strip_prefix old s with
  | Some rest => new +:+ replace_from fuel old new rest
  | None =>
      match s with
      | EmptyString => EmptyString
      | String c rest => String c (replace_from fuel old new rest)
      end
  end.
Proof. reflexivity. Qed.

(** Replacing keeps the first character. *)
Lemma replace_from_head (fuel : nat) (s : string) (a : ascii) (t : string) :
  replace_from fuel "__c" "__r" s = String a t -> exists t', s = String a t'.
Proof.
  destruct fuel as [|fuel].
  - simpl. intros ->. eauto.
  - rewrite replace_from_S.
    destruct (strip_prefix "__c" s) as [rest|] eqn:E.
    + apply strip_prefix_app in E. subst s. intros H. simpl in H.
      inversion H; subst. eexists. reflexivity.
    + destruct s as [|c s]; [discriminate|]. intros H.
      inversion H; subst. eauto.
Qed.

(** A ["c"] in second place was there before. *)
Lemma replace_from_second_c (fuel : nat) (s : string) (a : ascii) (t : string) :
  replace_from fuel "__c" "__r" s = String a (String "c" t) ->
  exists t', s = String a (String "c" t').
Proof.
  destruct fuel as [|fuel].
  - simpl. intros ->. eauto.
  - rewrite replace_from_S.
    destruct (strip_prefix "__c" s) as [rest|] eqn:E.
    + intros H. simpl in H. discriminate.
    + destruct s as [|c s]; [discriminate|]. intros H.
      inversion H as [[Ha Ht]]. subst c.
      apply replace_from_head in Ht. destruct Ht as [t' ->]. eauto.
Qed.

Lemma replace_from_no_c (fuel : nat) : forall s : string,
  (String.length s <= fuel)%nat ->
  str_contains "__c" (replace_from fuel "__c" "__r" s) = false.
Proof.
  induction fuel as [|fuel IH]; intros s Hlen.
  - destruct s; [reflexivity|simpl in Hlen; lia].
  - rewrite replace_from_S.
    destruct (strip_prefix "__c" s) as [rest|] eqn:E.
    + apply strip_prefix_app in E. subst s.
      change ("__c" +:+ rest) with (String "_" (String "_" (String "c" rest))) in Hlen.
      simpl in Hlen.
      assert (str_contains "__c" (replace_from fuel "__c" "__r" rest) = false) as H
        by (apply IH; lia).
      revert H. generalize (replace_from fuel "__c" "__r" rest). intros r H.
      change ("__r" +:+ r) with (String "_" (String "_" (String "r" r))).
      cbn. exact H.
    + destruct s as [|c s]; [reflexivity|].
      simpl in Hlen.
      assert (str_contains "__c" (replace_from fuel "__c" "__r" s) = false) as H
        by (apply IH; lia).
      assert (strip_prefix "__c" (String c (replace_from fuel "__c" "__r" s)) = None) as Hp.
      { destruct (strip_prefix "__c" (String c (replace_from fuel "__c" "__r" s)))
          as [t|] eqn:Et; [|reflexivity].
        apply strip_prefix_app in Et.
        change ("__c" +:+ t) with (String "_" (String "_" (String "c" t))) in Et.
        inversion Et as [[Hc Ht]].
        apply replace_from_second_c in Ht. destruct Ht as [t' ->].
        subst c. simpl in E. discriminate. }
      revert H Hp. generalize (replace_from fuel "__c" "__r" s). intros r H Hp.
      cbn [str_contains]. rewrite Hp. exact H.
Qed.

Lemma str_replace_no_c (s : string) :
  str_contains "__c" (str_replace "__c" "__r" s) = false.
Proof. apply replace_from_no_c. lia. Qed.

Lemma str_contains_eq (sub s : string) :
  str_contains sub s =
  match strip_prefix sub s with
  | Some _ => true
  | None => match s with EmptyString => false | String _ rest => str_contains sub rest end
  end.
Proof. destruct s; reflexivity. Qed.

Lemma replace_from_without_c (fuel : nat) : forall s : string,
  str_contains "__c" s = false -> replace_from fuel "__c" "__r" s = s.
Proof.
  induction fuel as [|fuel IH]; intros s Hs; [reflexivity|].
  rewrite replace_from_S. rewrite str_contains_eq in Hs.
  destruct (strip_prefix "__c" s); [discriminate|].
  destruct s as [|c rest]; [reflexivity|]. rewrite (IH rest Hs). reflexivity.
Qed.

Lemma str_replace_without_c (s : string) :
  str_contains "__c" s = false -> str_replace "__c" "__r" s = s.
Proof. intros H. apply replace_from_without_c. exact H. Qed.

(** ** Keys and dicts *)

Lemma key_eqb_sym (k1 k2 : pyval) : key_eqb k1 k2 = key_eqb k2 k1.
Proof.
  destruct k1, k2; simpl; try reflexivity;
    try apply Z.eqb_sym; try apply String.eqb_sym.
Qed.

Lemma key_eqb_trans (k1 k2 k3 : pyval) :
  key_eqb k1 k2 = true -> key_eqb k2 k3 = true -> key_eqb k1 k3 = true.
Proof.
  destruct k1, k2, k3; simpl; try congruence;
    rewrite ?Z.eqb_eq, ?String.eqb_eq; congruence.
Qed.

Lemma key_eqb_str (s : string) (k : pyval) :
  key_eqb (PStr s) k = true <-> k = PStr s.
Proof.
  destruct k; simpl; try (split; congruence).
  rewrite String.eqb_eq. split; congruence.
Qed.

Lemma key_eqb_hashable (k1 k2 : pyval) : key_eqb k1 k2 = true -> hashable k2 = true.
Proof. destruct k1, k2; simpl; congruence. Qed.

(** Reading a dict after a write. *)
Lemma dict_get_set (d : dict) (k v k' : pyval) :
  dict_get (dict_set d k v) k' =
  if key_eqb k k' then Some v else dict_get d k'.
Proof.
  induction d as [|[k1 v1] rest IH]; simpl; [reflexivity|].
  destruct (key_eqb k1 k) eqn:E1; simpl.
  - destruct (key_eqb k1 k') eqn:E2, (key_eqb k k') eqn:E3; try reflexivity.
    + rewrite key_eqb_sym in E1.
      rewrite (key_eqb_trans _ _ _ E1 E2) in E3. discriminate.
    + rewrite (key_eqb_trans _ _ _ E1 E3) in E2. discriminate.
  - rewrite IH.
    destruct (key_eqb k1 k') eqn:E2, (key_eqb k k') eqn:E3; try reflexivity.
    rewrite key_eqb_sym in E3.
    rewrite (key_eqb_trans _ _ _ E2 E3) in E1. discriminate.
Qed.


Lemma dict_get_unhashable (d : dict) (k : pyval) :
  hashable k = false -> dict_get d k = None.
Proof.
  intros H. induction d as [|[k1 v1] rest IH]; simpl; [reflexivity|].
  destruct (key_eqb k1 k) eqn:E; [|exact IH].
  apply key_eqb_hashable in E. congruence.
Qed.

(** ** The query executor seen from the callers *)

(** The records [run_soql_query] returns for a query. *)
Definition query_records (query : string) : list pyval :=
  match sf_query_all query with
  | QResult (Some records) => records
  | _ => []
  end.

(** The query [get_object] hands to the executor, if it gets that far:
    [Ok None] when it returns early, [Raise] when it raises before. *)
Definition planned_query (catalog : gmap string dict) (object_name : pyval)
    (where_ : option string) : outcome (option string) :=
  if decide (catalog = ∅) then Ok None
  else if hashable object_name then
    match object_name with
    | PStr name =>
        match catalog !! name with
        | Some ((_ :: _) as fields) =>
            (do field_list <~ str_join ", " (List.map fst fields);
             let query := "SELECT " +:+ field_list +:+ " FROM " +:+ name in
             Ok (Some (match where_ with
                       | Some w => if truthy (PStr w) then query +:+ " WHERE " +:+ w else query
                       | None => query
                       end)))%outcome
        | _ => Ok None
        end
    | _ => Ok None
    end
  else Raise TypeError.

Ltac run_monad :=
  unfold bind, ret, raise, get, modify, pure, on_snd; simpl.

Lemma get_object_fields_state (name : pyval) (w : world) :
  snd (get_object_fields name w) = w.
Proof.
  unfold get_object_fields. run_monad.
  destruct (decide (object_definitions w = ∅)); [reflexivity|].
  destruct name; reflexivity.
Qed.

Lemma get_object_fields_loaded (name : string) (fields : dict) (w : world) :
  object_definitions w !! name = Some fields ->
  get_object_fields (PStr name) w = (Ok (Some fields), w).
Proof.
  intros H. unfold get_object_fields. run_monad.
  destruct (decide (object_definitions w = ∅)) as [E|_].
  - rewrite E, lookup_empty in H. discriminate.
  - rewrite H. reflexivity.
Qed.

Lemma truthy_list (l : list pyval) : (if truthy (PList l) then l else []) = l.
Proof. destruct l; reflexivity. Qed.

(** [get_object] in closed form. *)
Lemma get_object_eq (object_name : pyval) (where_ : option string) (w : world) :
  get_object object_name where_ w =
  match planned_query (object_definitions w) object_name where_ with
  | Raise e => (Raise e, w)
  | Ok None => (Ok [], w)
  | Ok (Some query) => (Ok (query_records query), log_query query w)
  end.
Proof.
  unfold get_object, get_object_fields, planned_query, run_soql_query, query_records.
  unfold bind, ret, raise, get, modify, pure. cbv beta iota zeta.
  destruct (decide (object_definitions w = ∅)); [reflexivity|].
  destruct object_name as [| | |name| |]; try reflexivity.
  cbv beta iota zeta delta [hashable].
  destruct (object_definitions w !! name) as [[|kv fields]|]; try reflexivity.
  cbv beta iota zeta.
  destruct (str_join ", " (List.map fst (kv :: fields))) as [field_list|e];
    [|reflexivity].
  cbv beta iota zeta delta [obind py_str].
  rewrite truthy_list.
  destruct (sf_query_all _) as [|[records|]]; reflexivity.
Qed.

(** [get_object_by_id] in closed form. *)
Definition id_predicate (id : pyval) : string := "Id = '" +:+ py_str id +:+ "'".

Lemma get_object_by_id_eq (object_name id : pyval) (w : world) :
  get_object_by_id object_name id w =
  match planned_query (object_definitions w) object_name (Some (id_predicate id)) with
  | Raise e => (Raise e, w)
  | Ok None => (Ok PNone, w)
  | Ok (Some query) => (Ok (hd PNone (query_records query)), log_query query w)
  end.
Proof.
  unfold get_object_by_id, bind. fold (id_predicate id). rewrite get_object_eq.
  destruct (planned_query _ _ _) as [[query|]|e]; reflexivity.
Qed.

Lemma planned_query_world (object_name id : pyval) (w : world) (o : outcome pyval) (w' : world) :
  get_object_by_id object_name id w = (o, w') ->
  object_definitions w' = object_definitions w /\ files w' = files w.
Proof.
  rewrite get_object_by_id_eq.
  destruct (planned_query _ _ _) as [[query|]|e]; intros [= <- <-]; auto.
Qed.

(** ** The resolver loop *)

Lemma dict_get_hashable (d : dict) (k v : pyval) :
  dict_get d k = Some v -> hashable k = true.
Proof.
  intros H. destruct (hashable k) eqn:E; [reflexivity|].
  rewrite dict_get_unhashable in H by assumption. discriminate.
Qed.

(** What [obj.get(field_name)] holds, [None] included. *)
Definition field_value (obj : dict) (field_name : pyval) : pyval :=
  default PNone (dict_get obj field_name).

(** One iteration of the loop in closed form. *)
Definition resolve_step (refs : option (list string)) (field_name field_info : pyval)
    (obj : dict) (w : world) : outcome unit * (dict * world) :=
  if truthy (field_value obj field_name) then
    if not_requested refs field_name then (Ok tt, (obj, w))
    else
      match py_getitem field_info (PStr "reference") with
      | Raise e => (Raise e, (obj, w))
      | Ok target =>
          match get_object_by_id target (field_value obj field_name) w with
          | (Raise e, w') => (Raise e, (obj, w'))
          | (Ok ref_data, w') =>
              if truthy ref_data then
                match resolved_key field_name with
                | Ok key => (Ok tt, (dict_set obj key ref_data, w'))
                | Raise e => (Raise e, (obj, w'))
                end
              else (Ok tt, (obj, w'))
          end
      end
  else (Ok tt, (obj, w)).

Lemma resolve_field_eq (refs : option (list string)) (field_name field_info : pyval)
    (obj : dict) (w : world) :
  resolve_field refs (field_name, field_info) (obj, w) =
  resolve_step refs field_name field_info obj w.
Proof.
  unfold resolve_field, resolve_step, field_value.
  unfold bind, ret, raise, get, modify, pure, on_snd. cbv beta iota zeta.
  cbn [fst snd].
  destruct (dict_get obj field_name) as [v|] eqn:Hv; [|reflexivity].
  cbn [default from_option id].
  destruct (truthy v); [|reflexivity].
  destruct (not_requested refs field_name); [reflexivity|].
  destruct (py_getitem field_info (PStr "reference")) as [target|e]; [|reflexivity].
  unfold py_getitem at 1. rewrite (dict_get_hashable _ _ _ Hv), Hv.
  cbv beta iota zeta. cbn [fst snd].
  destruct (get_object_by_id target v w) as [[ref_data|e] w']; [|reflexivity].
  destruct (truthy ref_data); [|reflexivity].
  destruct (resolved_key field_name); reflexivity.
Qed.

(** The loop over the reference fields, on explicit states. *)
Definition resolve_fields (refs : option (list string)) (items : dict)
    (obj : dict) (w : world) : outcome unit * (dict * world) :=
  for_each (resolve_field refs) items (obj, w).

Lemma resolve_fields_nil refs obj w : resolve_fields refs [] obj w = (Ok tt, (obj, w)).
Proof. reflexivity. Qed.

Lemma resolve_fields_cons refs field_name field_info rest obj w :
  resolve_fields refs ((field_name, field_info) :: rest) obj w =
  match resolve_step refs field_name field_info obj w with
  | (Ok _, (obj', w')) => resolve_fields refs rest obj' w'
  | (Raise e, s) => (Raise e, s)
  end.
Proof.
  unfold resolve_fields. cbn [for_each]. unfold bind at 1.
  rewrite resolve_field_eq.
  destruct (resolve_step _ _ _ _ _) as [[[]|e] [obj' w']]; reflexivity.
Qed.

(** Processing [pre ++ post] is processing [pre], then [post] from where
    [pre] ended. *)
Lemma resolve_fields_app refs pre post obj w :
  resolve_fields refs (pre ++ post) obj w =
  match resolve_fields refs pre obj w with
  | (Ok _, (obj', w')) => resolve_fields refs post obj' w'
  | (Raise e, s) => (Raise e, s)
  end.
Proof.
  revert obj w. induction pre as [|[f info] pre IH]; intros obj w.
  - reflexivity.
  - simpl app. rewrite !resolve_fields_cons.
    destruct (resolve_step _ _ _ _ _) as [[[]|e] [obj' w']]; [apply IH|reflexivity].
Qed.

(** [resolve_references] is the loop over what [get_object_references]
    returns. *)
Lemma resolve_references_eq object_name refs obj w :
  resolve_references object_name refs (obj, w) =
  match get_object_references object_name w with
  | (Ok items, w') => resolve_fields refs items obj w'
  | (Raise e, w') => (Raise e, (obj, w'))
  end.
Proof.
  unfold resolve_references, resolve_fields, bind, on_snd. cbn [fst snd].
  destruct (get_object_references object_name w) as [[items|e] w']; [|reflexivity].
  destruct items; reflexivity.
Qed.

Lemma get_object_references_state object_name w :
  snd (get_object_references object_name w) = w.
Proof.
  unfold get_object_references, bind.
  pose proof (get_object_fields_state object_name w) as H.
  destruct (get_object_fields object_name w) as [[[[|kv fields]|]|e] w']; simpl in *;
    subst; reflexivity.
Qed.

(** The reference fields [resolve_references] loops over in world [w]. *)
Definition reference_fields (w : world) (object_name : pyval) : dict :=
  match get_object_references object_name w with
  | (Ok items, _) => items
  | (Raise _, _) => []
  end.

(** The record as [resolve_references] leaves it, also when it raises. *)
Definition resolved_record (object_name : pyval) (refs : option (list string))
    (obj : dict) (w : world) : dict :=
  fst (snd (resolve_references object_name refs (obj, w))).

(** The record [get_object_by_id] returns, whatever the log is. *)
Definition fetch (catalog : gmap string dict) (object_name id : pyval) : outcome pyval :=
  match planned_query catalog object_name (Some (id_predicate id)) with
  | Raise e => Raise e
  | Ok None => Ok PNone
  | Ok (Some query) => Ok (hd PNone (query_records query))
  end.

Lemma get_object_by_id_fetch (object_name id : pyval) (w : world) :
  fst (get_object_by_id object_name id w) = fetch (object_definitions w) object_name id.
Proof.
  rewrite get_object_by_id_eq. unfold fetch.
  destruct (planned_query _ _ _) as [[query|]|e]; reflexivity.
Qed.

(** What one iteration can do: nothing to the record and at most one query,
    or one query whose first record is embedded under the resolved key. *)
Inductive step_effect (refs : option (list string)) (field_name : pyval)
    (obj : dict) (w : world) : outcome unit -> dict -> world -> Prop :=
| step_quiet o w' :
    object_definitions w' = object_definitions w ->
    queries w' = queries w ->
    step_effect refs field_name obj w o obj w'
| step_asked o w' query :
    object_definitions w' = object_definitions w ->
    queries w' = queries w ++ [query] ->
    truthy (field_value obj field_name) = true ->
    step_effect refs field_name obj w o obj w'
| step_embedded w' query name :
    object_definitions w' = object_definitions w ->
    queries w' = queries w ++ [query] ->
    truthy (field_value obj field_name) = true ->
    not_requested refs field_name = false ->
    field_name = PStr name ->
    truthy (hd PNone (query_records query)) = true ->
    step_effect refs field_name obj w (Ok tt)
      (dict_set obj (PStr (str_replace "__c" "__r" name)) (hd PNone (query_records query))) w'.

Lemma resolve_step_effect refs field_name field_info obj w o obj' w' :
  resolve_step refs field_name field_info obj w = (o, (obj', w')) ->
  step_effect refs field_name obj w o obj' w'.
Proof.
  unfold resolve_step.
  destruct (truthy (field_value obj field_name)) eqn:Hv;
    [|intros [= <- <- <-]; apply step_quiet; reflexivity].
  destruct (not_requested refs field_name) eqn:Hr;
    [intros [= <- <- <-]; apply step_quiet; reflexivity|].
  destruct (py_getitem field_info (PStr "reference")) as [target|e];
    [|intros [= <- <- <-]; apply step_quiet; reflexivity].
  rewrite get_object_by_id_eq.
  destruct (planned_query _ _ _) as [[query|]|e].
  - destruct (truthy (hd PNone (query_records query))) eqn:Hd.
    + destruct field_name as [| | |name| |]; simpl resolved_key;
        intros [= <- <- <-];
        try (eapply step_asked; [reflexivity|reflexivity|assumption]).
      eapply step_embedded; auto.
    + intros [= <- <- <-]. eapply step_asked; [reflexivity|reflexivity|assumption].
  - simpl. intros [= <- <- <-]. apply step_quiet; reflexivity.
  - intros [= <- <- <-]. apply step_quiet; reflexivity.
Qed.

(** A populated key stays populated. *)
Lemma step_effect_truthy refs field_name obj w o obj' w' k :
  step_effect refs field_name obj w o obj' w' ->
  truthy (field_value obj k) = true -> truthy (field_value obj' k) = true.
Proof.
  intros H Hk. destruct H; try assumption.
  unfold field_value in *. rewrite dict_get_set.
  destruct (key_eqb _ k); [assumption|exact Hk].
Qed.

(** A key that is not the resolved key of the field keeps its value. *)
Lemma step_effect_frame refs field_name obj w o obj' w' k :
  step_effect refs field_name obj w o obj' w' ->
  (forall name, field_name = PStr name -> k <> PStr (str_replace "__c" "__r" name)) ->
  dict_get obj' k = dict_get obj k.
Proof.
  intros H Hk. destruct H as [| |w' query name ? ? ? ? Hname ?]; try reflexivity.
  rewrite dict_get_set.
  destruct (key_eqb _ k) eqn:E; [|reflexivity].
  apply key_eqb_str in E. destruct (Hk name Hname E).
Qed.

(** A value of the record after the step was there before, or is the first
    record of the query just sent. *)
Lemma step_effect_values refs field_name obj w o obj' w' k v :
  step_effect refs field_name obj w o obj' w' ->
  dict_get obj' k = Some v ->
  dict_get obj k = Some v \/
  exists query, queries w' = queries w ++ [query] /\ v = hd PNone (query_records query).
Proof.
  intros H Hk. destruct H as [| |w' query name ? Hq ? ? ? ?]; auto.
  rewrite dict_get_set in Hk.
  destruct (key_eqb _ k); auto.
  right. exists query. split; [exact Hq|congruence].
Qed.

(** The fields of [items] that hold a truthy value in [obj]. *)
Definition populated (obj : dict) (items : dict) : dict :=
  List.filter (fun item => truthy (field_value obj (fst item))) items.

Lemma resolve_fields_frame refs items : forall obj w o obj' w' k,
  resolve_fields refs items obj w = (o, (obj', w')) ->
  (forall name info, In (PStr name, info) items ->
                     k <> PStr (str_replace "__c" "__r" name)) ->
  dict_get obj' k = dict_get obj k.
Proof.
  induction items as [|[f info] rest IH]; intros obj w o obj' w' k Hrun Hk.
  - rewrite resolve_fields_nil in Hrun. congruence.
  - rewrite resolve_fields_cons in Hrun.
    destruct (resolve_step refs f info obj w) as [o1 [obj1 w1]] eqn:Hstep.
    apply resolve_step_effect in Hstep.
    assert (dict_get obj1 k = dict_get obj k) as H1.
    { eapply step_effect_frame; [exact Hstep|].
      intros name ->. apply (Hk name info). left. reflexivity. }
    destruct o1 as [[]|e].
    + rewrite <- H1. eapply IH; [exact Hrun|].
      intros name info' Hin. apply (Hk name info'). right. exact Hin.
    + injection Hrun as <- <- <-. exact H1.
Qed.

Lemma resolve_fields_effect refs items : forall obj w o obj' w',
  resolve_fields refs items obj w = (o, (obj', w')) ->
  object_definitions w' = object_definitions w /\
  (forall k, truthy (field_value obj k) = true -> truthy (field_value obj' k) = true) /\
  exists sent,
    queries w' = queries w ++ sent /\
    (List.length sent <= List.length (populated obj' items))%nat /\
    forall k v, dict_get obj' k = Some v ->
      dict_get obj k = Some v \/
      exists query, In query sent /\ v = hd PNone (query_records query).
Proof.
  induction items as [|[f info] rest IH]; intros obj w o obj' w' Hrun.
  - rewrite resolve_fields_nil in Hrun. injection Hrun as <- <- <-.
    split; [reflexivity|]. split; [auto|].
    exists []. rewrite app_nil_r. repeat split; auto.
  - rewrite resolve_fields_cons in Hrun.
    destruct (resolve_step refs f info obj w) as [o1 [obj1 w1]] eqn:Hstep.
    apply resolve_step_effect in Hstep.
    pose proof (step_effect_truthy _ _ _ _ _ _ _ f Hstep) as Hmono_f.
    pose proof (fun k => step_effect_truthy _ _ _ _ _ _ _ k Hstep) as Hmono.
    pose proof (fun k v => step_effect_values _ _ _ _ _ _ _ k v Hstep) as Hvals.
    assert (exists obj2 w2 o2, resolve_fields refs rest obj1 w1 = (o2, (obj2, w2)) /\
              (o1 = Ok tt -> o = o2 /\ obj' = obj2 /\ w' = w2) /\
              (forall e, o1 = Raise e -> obj' = obj1 /\ w' = w1)) as Hrest.
    { destruct (resolve_fields refs rest obj1 w1) as [o2 [obj2 w2]] eqn:E.
      exists obj2, w2, o2. split; [reflexivity|].
      destruct o1 as [[]|e]; split; intros; try discriminate.
      - injection Hrun as <- <- <-. auto.
      - injection Hrun as <- <- <-. auto. }
    destruct Hrest as (obj2 & w2 & o2 & Hrun2 & Hok & Hraise).
    destruct (IH _ _ _ _ _ Hrun2) as (Hcat2 & Hmono2 & sent2 & Hq2 & Hlen2 & Hval2).
    unfold populated in *. cbn [List.filter fst].
    destruct o1 as [[]|e].
    + destruct (Hok eq_refl) as (-> & -> & ->).
      assert (object_definitions w1 = object_definitions w) as Hcat1
          by (destruct Hstep; assumption).
      split; [congruence|]. split; [auto|].
      assert (forall k v, dict_get obj2 k = Some v ->
                dict_get obj1 k = Some v \/
                exists query, In query sent2 /\ v = hd PNone (query_records query))
        as Hv2 by exact Hval2.
      destruct Hstep as [o1 w1 Hc Hq| o1 w1 query Hc Hq Hp | w1 query name Hc Hq Hp Hr Hn Hd].
      * exists sent2. split; [congruence|]. split.
        { destruct (truthy (field_value obj2 f)); simpl; lia. }
        exact Hval2.
      * exists (query :: sent2). split.
        { rewrite Hq2, Hq, <- app_assoc. reflexivity. }
        split.
        { rewrite (Hmono2 f Hp). simpl. lia. }
        intros k v Hk. destruct (Hval2 k v Hk) as [H|(q & Hin & Hq')]; [left; exact H|].
        right. exists q. split; [right; exact Hin|exact Hq'].
      * exists (query :: sent2). split.
        { rewrite Hq2, Hq, <- app_assoc. reflexivity. }
        split.
        { rewrite (Hmono2 f (Hmono_f Hp)). simpl. lia. }
        intros k v Hk. destruct (Hval2 k v Hk) as [H|(q & Hin & Hq')].
        { destruct (Hvals k v H) as [H'|(q & Hq1 & Hv)]; [left; exact H'|].
          right. exists q. split; [|exact Hv].
          rewrite Hq in Hq1. apply app_inv_head in Hq1. injection Hq1 as <-. left. reflexivity. }
        right. exists q. split; [right; exact Hin|exact Hq'].
    + destruct (Hraise e eq_refl) as (-> & ->).
      assert (object_definitions w1 = object_definitions w) as Hcat1
          by (inversion Hstep; assumption).
      split; [exact Hcat1|]. split; [exact Hmono|].
      inversion Hstep as [o1' w1' Hc Hq| o1' w1' query Hc Hq Hp |]; subst.
      * exists []. rewrite app_nil_r. split; [exact Hq|]. split; [simpl; lia|].
        intros k v Hk. left. exact Hk.
      * exists [query]. split; [exact Hq|]. split.
        { rewrite Hp. simpl. lia. }
        intros k v Hk. left. exact Hk.
Qed.

Lemma get_object_references_eq object_name w :
  get_object_references object_name w = (fst (get_object_references object_name w), w).
Proof.
  pose proof (get_object_references_state object_name w) as H.
  destruct (get_object_references object_name w) as [o w']. simpl in *. congruence.
Qed.

(** A key that contains ["__c"] is nobody's resolved key. *)
Lemma custom_name_not_resolved (name other : string) :
  str_contains "__c" name = true -> PStr name <> PStr (str_replace "__c" "__r" other).
Proof.
  intros H [= ->]. rewrite str_replace_no_c in H. discriminate.
Qed.

(** The ways a fetch by id fails or finds nothing: the target has no
    schema loaded, the executor raises, its answer has no records. *)
Inductive fetch_fails (catalog : gmap string dict) (target id : pyval) : Prop :=
| fails_not_loaded :
    planned_query catalog target (Some (id_predicate id)) = Ok None ->
    fetch_fails catalog target id
| fails_raised query :
    planned_query catalog target (Some (id_predicate id)) = Ok (Some query) ->
    sf_query_all query = QRaise ->
    fetch_fails catalog target id
| fails_no_records query :
    planned_query catalog target (Some (id_predicate id)) = Ok (Some query) ->
    sf_query_all query = QResult None ->
    fetch_fails catalog target id
| fails_empty query :
    planned_query catalog target (Some (id_predicate id)) = Ok (Some query) ->
    sf_query_all query = QResult (Some []) ->
    fetch_fails catalog target id.

Lemma fetch_fails_none catalog target id w :
  object_definitions w = catalog ->
  fetch_fails catalog target id ->
  exists w', object_definitions w' = catalog /\ files w' = files w /\
             get_object_by_id target id w = (Ok PNone, w').
Proof.
  intros <- H. rewrite get_object_by_id_eq.
  destruct H as [H|query H Hq|query H Hq|query H Hq]; rewrite H.
  - exists w. auto.
  - exists (log_query query w). unfold query_records. rewrite Hq. auto.
  - exists (log_query query w). unfold query_records. rewrite Hq. auto.
  - exists (log_query query w). unfold query_records. rewrite Hq. auto.
Qed.

(** ** Claims about [resolve_references] *)

(** C1 (amended): [resolve_references] leaves a key of the record as it was
    unless the key is the resolved key of one of the object's reference
    fields (its name with ["__c"] replaced by ["__r"]).  In particular every
    key whose name contains ["__c"], such as [Parent__c], keeps its
    value. *)
Theorem resolve_references_keeps_other_keys
    (object_name : pyval) (refs : option (list string)) (obj : dict) (w : world) (k : pyval) :
  (exists name, k = PStr name /\ str_contains "__c" name = true) \/
  (forall name info, In (PStr name, info) (reference_fields w object_name) ->
                     k <> PStr (str_replace "__c" "__r" name)) ->
  dict_get (resolved_record object_name refs obj w) k = dict_get obj k.
Proof.
  intros Hk.
  assert (forall name info, In (PStr name, info) (reference_fields w object_name) ->
                            k <> PStr (str_replace "__c" "__r" name)) as Hk'.
  { destruct Hk as [(name & -> & Hc)|Hk]; [|exact Hk].
    intros other _ _. apply custom_name_not_resolved. exact Hc. }
  unfold resolved_record. rewrite resolve_references_eq.
  unfold reference_fields in Hk'.
  rewrite get_object_references_eq in Hk' |- *.
  destruct (fst (get_object_references object_name w)) as [items|e]; [|reflexivity].
  destruct (resolve_fields refs items obj w) as [o [obj' w']] eqn:Hrun.
  simpl. eapply resolve_fields_frame; eauto.
Qed.

(** C7 (amended): a record whose object has no reference fields is
    returned unchanged; and when the fetch for a reference field fails in
    the executor or finds nothing (the target has no schema loaded, the
    executor raises, its answer has no records), the record is left as it
    was for that field and the loop goes on with the remaining fields. *)
Theorem resolve_references_skips_failed_fetch
    (object_name : pyval) (refs : option (list string)) (obj : dict) (w : world) :
  (get_object_references object_name w = (Ok [], w) ->
   resolve_references object_name refs (obj, w) = (Ok tt, (obj, w))) /\
  (forall pre field_name field_info post obj1 w1 target,
     get_object_references object_name w
       = (Ok (pre ++ (field_name, field_info) :: post), w) ->
     resolve_fields refs pre obj w = (Ok tt, (obj1, w1)) ->
     py_getitem field_info (PStr "reference") = Ok target ->
     fetch_fails (object_definitions w1) target (field_value obj1 field_name) ->
     exists w2,
       object_definitions w2 = object_definitions w1 /\
       resolve_references object_name refs (obj, w) = resolve_fields refs post obj1 w2).
Proof.
  split.
  - intros H. rewrite resolve_references_eq, H. reflexivity.
  - intros pre f info post obj1 w1 target Hrefs Hpre Htarget Hfail.
    rewrite resolve_references_eq, Hrefs, resolve_fields_app, Hpre, resolve_fields_cons.
    unfold resolve_step. rewrite Htarget.
    destruct (fetch_fails_none _ _ _ w1 eq_refl Hfail) as (w2 & Hcat & _ & Hfetch).
    destruct (truthy (field_value obj1 f)); [|exists w1; auto].
    destruct (not_requested refs f); [exists w1; auto|].
    rewrite Hfetch. simpl. exists w2. auto.
Qed.

(** C10: when the record holds a falsy value for a reference field ([None],
    no value at all, [""], [0], [False]), the loop passes over the field:
    nothing is sent to the executor and the record is not touched. *)
Theorem resolve_references_skips_falsy
    (object_name : pyval) (refs : option (list string)) (obj : dict) (w : world)
    (pre : dict) (field_name field_info : pyval) (post : dict) (obj1 : dict) (w1 : world) :
  get_object_references object_name w
    = (Ok (pre ++ (field_name, field_info) :: post), w) ->
  resolve_fields refs pre obj w = (Ok tt, (obj1, w1)) ->
  dict_get obj1 field_name = None \/
  dict_get obj1 field_name = Some PNone \/
  dict_get obj1 field_name = Some (PStr "") \/
  dict_get obj1 field_name = Some (PInt 0) \/
  dict_get obj1 field_name = Some (PBool false) \/
  truthy (field_value obj1 field_name) = false ->
  resolve_references object_name refs (obj, w) = resolve_fields refs post obj1 w1.
Proof.
  intros Hrefs Hpre Hfalsy.
  assert (truthy (field_value obj1 field_name) = false) as Hv.
  { unfold field_value.
    destruct Hfalsy as [H|[H|[H|[H|[H|H]]]]]; try rewrite H; auto. }
  rewrite resolve_references_eq, Hrefs, resolve_fields_app, Hpre, resolve_fields_cons.
  unfold resolve_step. rewrite Hv. reflexivity.
Qed.

(** ** Claims about [get_object] and [get_object_by_id] *)

Lemma str_items_strings (names : list string) : str_items (List.map PStr names) = Ok names.
Proof.
  induction names as [|n rest IH]; simpl; [reflexivity|]. rewrite IH. reflexivity.
Qed.

Lemma planned_query_loaded (catalog : gmap string dict) (name : string) (fields : dict)
    (names : list string) (where_ : option string) :
  catalog !! name = Some fields ->
  fields <> [] ->
  List.map fst fields = List.map PStr names ->
  planned_query catalog (PStr name) where_ =
  Ok (Some (let select := "SELECT " +:+ concat_sep ", " names +:+ " FROM " +:+ name in
            match where_ with
            | Some p => if truthy (PStr p) then select +:+ " WHERE " +:+ p else select
            | None => select
            end)).
Proof.
  intros Hlook Hne Hnames. unfold planned_query.
  destruct (decide (catalog = ∅)) as [E|_].
  { rewrite E, lookup_empty in Hlook. discriminate. }
  cbn [hashable]. rewrite Hlook.
  destruct fields as [|kv fields]; [contradiction|].
  unfold str_join. rewrite Hnames, str_items_strings. reflexivity.
Qed.

(** C6: for a loaded object whose field names are strings, [get_object]
    sends exactly one query: SELECT, the field names in the order of the
    schema joined by [", "], FROM, the object name; a non-empty predicate
    follows verbatim after WHERE, and without a predicate (or with an empty
    one) nothing follows. *)
Theorem get_object_select_query
    (name : string) (fields : dict) (names : list string) (where_ : option string) (w : world) :
  object_definitions w !! name = Some fields ->
  fields <> [] ->
  List.map fst fields = List.map PStr names ->
  exists query,
    get_object (PStr name) where_ w = (Ok (query_records query), log_query query w) /\
    (where_ = None ->
     query = "SELECT " +:+ concat_sep ", " names +:+ " FROM " +:+ name) /\
    (where_ = Some "" ->
     query = "SELECT " +:+ concat_sep ", " names +:+ " FROM " +:+ name) /\
    (forall predicate, where_ = Some predicate -> predicate <> "" ->
     query = ("SELECT " +:+ concat_sep ", " names +:+ " FROM " +:+ name)
               +:+ " WHERE " +:+ predicate).
Proof.
  intros Hlook Hne Hnames.
  rewrite get_object_eq, (planned_query_loaded _ _ _ _ where_ Hlook Hne Hnames).
  eexists. split; [reflexivity|].
  split; [intros ->; reflexivity|].
  split; [intros ->; reflexivity|].
  intros predicate -> Hp. cbn [truthy].
  destruct (String.eqb_spec predicate ""); [contradiction|reflexivity].
Qed.

(** C9: [get_object_by_id] returns [None] when the schema of the object is
    not loaded (nothing is sent) and when the executor, called with the
    query, raises or yields no records; it returns the first record when
    the executor yields some.  For a loaded schema whose field names are
    strings the executor is called. *)
Theorem get_object_by_id_first_or_none (object_name id : pyval) (w : world) :
  let '(o, w') := get_object_by_id object_name id w in
  (forall name, object_name = PStr name -> object_definitions w !! name = None ->
     o = Ok PNone /\ w' = w) /\
  (forall query, queries w' = queries w ++ [query] ->
     sf_query_all query = QRaise \/ sf_query_all query = QResult None \/
     sf_query_all query = QResult (Some []) ->
     o = Ok PNone) /\
  (forall query first rest, queries w' = queries w ++ [query] ->
     sf_query_all query = QResult (Some (first :: rest)) ->
     o = Ok first) /\
  (forall name fields names, object_name = PStr name ->
     object_definitions w !! name = Some fields -> fields <> [] ->
     List.map fst fields = List.map PStr names ->
     exists query, queries w' = queries w ++ [query]).
Proof.
  rewrite get_object_by_id_eq.
  destruct (planned_query (object_definitions w) object_name (Some (id_predicate id)))
    as [[query|]|e] eqn:Hplan.
  - split; [|split; [|split]].
    + intros name -> Hnone. unfold planned_query in Hplan.
      destruct (decide (object_definitions w = ∅)); [discriminate|].
      cbn [hashable] in Hplan. rewrite Hnone in Hplan. discriminate.
    + intros q Hq Hfail. simpl in Hq. apply app_inv_head in Hq. injection Hq as <-.
      unfold query_records.
      destruct Hfail as [H|[H|H]]; rewrite H; reflexivity.
    + intros q first rest Hq Hsome. simpl in Hq. apply app_inv_head in Hq.
      injection Hq as <-. unfold query_records. rewrite Hsome. reflexivity.
    + intros. exists query. reflexivity.
  - split; [|split; [|split]].
    + auto.
    + intros q Hq _. apply (f_equal (@List.length string)) in Hq.
      rewrite length_app in Hq. simpl in Hq. lia.
    + intros q first rest Hq _. apply (f_equal (@List.length string)) in Hq.
      rewrite length_app in Hq. simpl in Hq. lia.
    + intros name fields names -> Hlook Hne Hnames.
      rewrite (planned_query_loaded _ _ _ _ _ Hlook Hne Hnames) in Hplan. discriminate.
  - split; [|split; [|split]].
    + intros name -> Hnone. unfold planned_query in Hplan.
      destruct (decide (object_definitions w = ∅)); [discriminate|].
      cbn [hashable] in Hplan. rewrite Hnone in Hplan. discriminate.
    + intros q Hq _. apply (f_equal (@List.length string)) in Hq.
      rewrite length_app in Hq. simpl in Hq. lia.
    + intros q first rest Hq _. apply (f_equal (@List.length string)) in Hq.
      rewrite length_app in Hq. simpl in Hq. lia.
    + intros name fields names -> Hlook Hne Hnames.
      rewrite (planned_query_loaded _ _ _ _ _ Hlook Hne Hnames) in Hplan. discriminate.
Qed.

(** ** Claims about [load_object_definitions] *)

(** In live mode every entry of [fields] has the key ['name']: the filter
    of the comprehension lets every entry through. *)
Lemma field_info_has_name (f info : pyval) :
  field_info f = Ok info -> py_contains "name" info = Ok true.
Proof.
  unfold field_info. destruct f; try discriminate. cbn [py_get obind].
  destruct (if truthy _ then _ else _); cbn [obind]; [|discriminate].
  destruct (py_iter _); cbn [obind]; [|discriminate].
  destruct (omap _ _); cbn [obind]; [|discriminate].
  intros [= <-]. reflexivity.
Qed.

(** An entry of a snapshot that is a mapping without the key ['name'] is
    left out of the schema. *)
Lemma schema_add_without_name (acc entry : dict) :
  dict_get entry (PStr "name") = None -> schema_add acc (PDict entry) = Ok acc.
Proof. intros H. unfold schema_add. cbn [py_contains obind]. rewrite H. reflexivity. Qed.

(** One file of the cache folder: no exception leaves the [try], and at
    most the definition of the file's own object changes. *)
Lemma load_cached_file_effect names object_name doc w :
  load_cached_file names (object_name, doc) w = (Ok tt, w) \/
  exists fields schema,
    filtered_out names object_name = false /\
    yaml_safe_load doc = Some (PList fields) /\
    schema_of_fields fields = Ok schema /\
    load_cached_file names (object_name, doc) w = (Ok tt, set_definition object_name schema w).
Proof.
  unfold load_cached_file.
  destruct (filtered_out names object_name) eqn:Hf; [left; reflexivity|].
  destruct (yaml_safe_load doc) as [[| | | |fields|]|] eqn:Hl; try (left; reflexivity).
  destruct (schema_of_fields fields) as [schema|e] eqn:Hs; [|left; reflexivity].
  right. exists fields, schema. auto.
Qed.

(** C5 (what the code does): in snapshot mode, a call that leaves [names]
    at its default [[]] skips every snapshot, and the catalog stays as it
    was. *)
Theorem snapshot_load_with_default_names_loads_nothing
    (cache_folder : string) (output : option string) (w : world) :
  load_object_definitions names_default (Some cache_folder) output w = (Ok tt, w).
Proof.
  unfold load_object_definitions, bind, get.
  induction (glob_yaml cache_folder w) as [|[object_name doc] rest IH].
  - reflexivity.
  - cbn [for_each]. unfold bind at 1. cbn [load_cached_file]. exact IH.
Qed.

(** The loop of snapshot mode: the object [name] ends up with the schema
    of its own file. *)
Lemma load_cached_files_other names name :
  forall (entries : list (string * document)) (w : world),
  name ∉ entries.*1 ->
  exists w', for_each (load_cached_file names) entries w = (Ok tt, w') /\
             object_definitions w' !! name = object_definitions w !! name.
Proof.
  induction entries as [|[n d] rest IH]; intros w Hnot.
  - exists w. split; reflexivity.
  - cbn [for_each]. unfold bind at 1.
    rewrite fmap_cons in Hnot. apply not_elem_of_cons in Hnot.
    destruct Hnot as [Hne Hrest]. simpl in Hne.
    destruct (load_cached_file_effect names n d w)
      as [->|(fs & sc & _ & _ & _ & ->)].
    + apply IH. exact Hrest.
    + destruct (IH (set_definition n sc w) Hrest) as (w' & Hrun & Hlook).
      exists w'. split; [exact Hrun|].
      rewrite Hlook. simpl. apply lookup_insert_ne. congruence.
Qed.

Lemma load_cached_files_lookup names name doc fields schema :
  forall (entries : list (string * document)) (w : world),
  NoDup entries.*1 ->
  (name, doc) ∈ entries ->
  filtered_out names name = false ->
  yaml_safe_load doc = Some (PList fields) ->
  schema_of_fields fields = Ok schema ->
  exists w',
    for_each (load_cached_file names) entries w = (Ok tt, w') /\
    object_definitions w' !! name = Some schema.
Proof.
  intros entries w Hnodup Hin Hf Hl Hs.
  revert w. induction entries as [|[n d] rest IH]; intros w.
  { apply elem_of_nil in Hin. destruct Hin. }
  cbn [for_each]. unfold bind at 1.
  rewrite fmap_cons in Hnodup. apply NoDup_cons in Hnodup.
  destruct Hnodup as [Hhead Hnodup]. simpl in Hhead.
  apply elem_of_cons in Hin. destruct Hin as [[= <- <-]|Hin].
  - unfold load_cached_file. rewrite Hf, Hl, Hs. unfold modify.
    destruct (load_cached_files_other names name rest (set_definition name schema w) Hhead)
      as (w' & Hrun & Hlook).
    exists w'. split; [exact Hrun|].
    rewrite Hlook. simpl. apply lookup_insert_eq.
  - destruct (load_cached_file_effect names n d w)
      as [->|(fs & sc & _ & _ & _ & ->)]; apply IH; auto.
Qed.

(** What [glob] lists in a folder: the files it holds under a listed
    name, each once. *)
Lemma yaml_files_lookup (folder : gmap string document) (name : string) (doc : document) :
  (name, doc) ∈ yaml_files folder <-> folder !! name = Some doc /\ listed name = true.
Proof.
  unfold yaml_files. rewrite list_elem_of_In, List.filter_In, <- list_elem_of_In.
  rewrite elem_of_map_to_list. reflexivity.
Qed.

Lemma filter_fst_NoDup {A B} (p : A * B -> bool) (l : list (A * B)) :
  NoDup l.*1 -> NoDup (List.filter p l).*1.
Proof.
  induction l as [|x l IH]; [intros _; constructor|].
  rewrite fmap_cons, NoDup_cons. intros [Hhead Hrest]. cbn [List.filter].
  destruct (p x); [|auto].
  rewrite fmap_cons, NoDup_cons. split; [|auto].
  intros Hin. apply Hhead. apply list_elem_of_fmap in Hin.
  destruct Hin as (y & -> & Hy). apply list_elem_of_fmap. exists y. split; [reflexivity|].
  apply list_elem_of_In in Hy. apply List.filter_In in Hy. apply list_elem_of_In. tauto.
Qed.

Lemma yaml_files_NoDup (folder : gmap string document) : NoDup (yaml_files folder).*1.
Proof. apply filter_fst_NoDup, NoDup_fst_map_to_list. Qed.

(** A path without magic characters is read as the folder it names. *)
Lemma glob_yaml_literal (cache_folder : string) (w : world) :
  has_magic cache_folder = false ->
  glob_yaml cache_folder w = yaml_files (default ∅ (files w !! cache_folder)).
Proof. intros H. unfold glob_yaml. rewrite H. reflexivity. Qed.

(** What live mode leaves behind for an object it described: the schema in
    the catalog and the dumped [fields] in the folder. *)
Definition live_loaded (folder name : string) (w : world) : Prop :=
  exists fields schema,
    live_fields (describe_object (PStr name)) = Ok fields /\
    schema_of_fields fields = Ok schema /\
    object_definitions w !! name = Some schema /\
    default ∅ (files w !! folder) !! name = Some (yaml_dump (PList fields)).

Lemma load_live_object_effect folder object_name w w' :
  truthy (PStr folder) = true ->
  load_live_object (Some folder) object_name w = (Ok tt, w') ->
  (w' = w /\ truthy (describe_object object_name) = false) \/
  exists name fields schema,
    object_name = PStr name /\
    live_fields (describe_object (PStr name)) = Ok fields /\
    schema_of_fields fields = Ok schema /\
    w' = write_yaml folder name (yaml_dump (PList fields)) (set_definition name schema w).
Proof.
  intros Hfolder. unfold load_live_object, bind, pure, modify, ret.
  destruct (truthy (describe_object object_name)) eqn:Hd; cbn [negb].
  2:{ intros [= <-]. left. auto. }
  destruct object_name as [| | |name| |]; try discriminate.
  rewrite Hfolder.
  destruct (live_fields (describe_object (PStr name))) as [fields|e] eqn:Hl; [|discriminate].
  destruct (schema_of_fields fields) as [schema|e] eqn:Hs; [|discriminate].
  intros [= <-]. right. exists name, fields, schema. auto.
Qed.

Lemma live_loaded_step folder name object_name w w' :
  truthy (PStr folder) = true ->
  load_live_object (Some folder) object_name w = (Ok tt, w') ->
  (object_name = PStr name /\ truthy (describe_object (PStr name)) = true) \/
  live_loaded folder name w ->
  live_loaded folder name w'.
Proof.
  intros Hfolder Hrun Hcase.
  destruct (load_live_object_effect _ _ _ _ Hfolder Hrun)
    as [[-> Hd]|(n & fields & schema & -> & Hfields & Hschema & ->)].
  - destruct Hcase as [[-> Hd']|H]; [congruence|exact H].
  - destruct (decide (n = name)) as [->|Hne].
    + exists fields, schema. split; [exact Hfields|]. split; [exact Hschema|]. split.
      * simpl. apply lookup_insert_eq.
      * simpl. rewrite lookup_insert_eq. simpl. apply lookup_insert_eq.
    + destruct Hcase as [[[= ->] _]|(fs & sc & H1 & H2 & H3 & H4)]; [contradiction|].
      exists fs, sc. split; [exact H1|]. split; [exact H2|]. split.
      * simpl. rewrite lookup_insert_ne by exact Hne. exact H3.
      * simpl. rewrite lookup_insert_eq. simpl.
        rewrite lookup_insert_ne by exact Hne. exact H4.
Qed.

Lemma load_live_objects_loaded folder name : forall (names : list pyval) (w w' : world),
  truthy (PStr folder) = true ->
  for_each (load_live_object (Some folder)) names w = (Ok tt, w') ->
  (In (PStr name) names /\ truthy (describe_object (PStr name)) = true) \/
  live_loaded folder name w ->
  live_loaded folder name w'.
Proof.
  induction names as [|n rest IH]; intros w w' Hfolder Hrun Hcase.
  - injection Hrun as <-. destruct Hcase as [[[] _]|H]. exact H.
  - cbn [for_each] in Hrun. unfold bind at 1 in Hrun.
    destruct (load_live_object (Some folder) n w) as [[[]|e] w1] eqn:Hstep; [|discriminate].
    apply (IH w1 w' Hfolder Hrun).
    destruct Hcase as [[[->|Hin] Hd]|H].
    + right. eapply live_loaded_step; eauto.
    + left. auto.
    + right. eapply live_loaded_step; eauto.
Qed.

(** X19: an object that live mode described and wrote to a folder gets, in
    snapshot mode from that folder with a list of names that holds it, the
    schema live mode gave it, picklist values in their order.  The path of
    the folder has no magic character, the file of the object is one that
    [*.yaml] lists, and the YAML codec reads back the field list that was
    written. *)
Theorem live_then_snapshot_same_schema
    (name folder : string) (names : option (list string)) (n : string) (l : list string)
    (output' : option string) (w w1 c : world) :
  (forall fields, live_fields (describe_object (PStr name)) = Ok fields ->
                  yaml_safe_load (yaml_dump (PList fields)) = Some (PList fields)) ->
  folder <> "" ->
  has_magic folder = false ->
  listed name = true ->
  In (PStr name) (object_names names) ->
  truthy (describe_object (PStr name)) = true ->
  load_object_definitions names None (Some folder) w = (Ok tt, w1) ->
  filtered_out (Some (n :: l)) name = false ->
  files c = files w1 ->
  exists schema c1,
    load_object_definitions (Some (n :: l)) (Some folder) output' c = (Ok tt, c1) /\
    get_object_fields (PStr name) w1 = (Ok (Some schema), w1) /\
    get_object_fields (PStr name) c1 = (Ok (Some schema), c1).
Proof.
  intros Hyaml Hfolder Hmagic Hlisted Hin Hd Hlive Hfilter Hfiles.
  assert (truthy (PStr folder) = true) as Hf.
  { cbn [truthy]. destruct (String.eqb_spec folder ""); [contradiction|reflexivity]. }
  unfold load_object_definitions in Hlive.
  destruct (load_live_objects_loaded folder name _ _ _ Hf Hlive (or_introl (conj Hin Hd)))
    as (fields & schema & Hfields & Hschema & Hcat & Hfile).
  unfold load_object_definitions, bind, get. rewrite (glob_yaml_literal _ _ Hmagic).
  destruct (load_cached_files_lookup (Some (n :: l)) name (yaml_dump (PList fields)) fields
              schema (yaml_files (default ∅ (files c !! folder))) c)
    as (c1 & Hrun & Hlook); auto.
  - apply yaml_files_NoDup.
  - apply yaml_files_lookup. rewrite Hfiles. auto.
  - exists schema, c1. split; [exact Hrun|].
    split; apply get_object_fields_loaded; assumption.
Qed.

(** ** Resolving a second time *)

(** The resolved keys of the string-named fields of [items]. *)
Fixpoint resolved_names (items : dict) : list string :=
  match items with
  | [] => []
  | (PStr name, _) :: rest => str_replace "__c" "__r" name :: resolved_names rest
  | _ :: rest => resolved_names rest
  end.

Lemma resolved_names_In (name : string) (info : pyval) (items : dict) :
  In (PStr name, info) items -> In (str_replace "__c" "__r" name) (resolved_names items).
Proof.
  induction items as [|[f i] rest IH]; intros Hin; [destruct Hin|].
  destruct Hin as [[= -> ->]|Hin].
  - left. reflexivity.
  - destruct f; simpl; auto.
Qed.


Lemma get_object_by_id_run (object_name id : pyval) (w : world) :
  exists w',
    get_object_by_id object_name id w = (fetch (object_definitions w) object_name id, w') /\
    object_definitions w' = object_definitions w.
Proof.
  rewrite get_object_by_id_eq. unfold fetch.
  destruct (planned_query _ _ _) as [[query|]|e]; eexists; split; reflexivity.
Qed.


Lemma resolve_fields_catalog refs items obj w o obj' w' :
  resolve_fields refs items obj w = (o, (obj', w')) ->
  object_definitions w' = object_definitions w.
Proof. intros H. apply resolve_fields_effect in H. destruct H as [H _]. exact H. Qed.







(** * Further properties of the module *)

(** ** Loading, live mode *)

Lemma for_each_app {S A} (body : A -> M S unit) (pre post : list A) (s : S) :
  for_each body (pre ++ post) s =
  match for_each body pre s with
  | (Ok _, s') => for_each body post s'
  | (Raise e, s') => (Raise e, s')
  end.
Proof.
  revert s. induction pre as [|x pre IH]; intros s; [reflexivity|].
  simpl app. cbn [for_each]. unfold bind.
  destruct (body x s) as [[[]|e] s']; [apply IH|reflexivity].
Qed.

(** What one iteration of the live loop does to the world. *)
Inductive live_step (output : option string) (object_name : pyval) (w : world)
    : outcome unit -> world -> Prop :=
| live_skipped :
    truthy (describe_object object_name) = false ->
    live_step output object_name w (Ok tt) w
| live_raised e :
    truthy (describe_object object_name) = true ->
    (live_fields (describe_object object_name) = Raise e \/
     exists fields, live_fields (describe_object object_name) = Ok fields /\
                    schema_of_fields fields = Raise e) ->
    live_step output object_name w (Raise e) w
| live_loaded_object name fields schema w' :
    object_name = PStr name ->
    truthy (describe_object object_name) = true ->
    live_fields (describe_object object_name) = Ok fields ->
    schema_of_fields fields = Ok schema ->
    object_definitions w' = <[name := schema]> (object_definitions w) ->
    queries w' = queries w ->
    (files w' = files w \/
     exists folder, output = Some folder /\ folder <> "" /\
       files w' = <[folder := <[name := yaml_dump (PList fields)]>
                                 (default ∅ (files w !! folder))]> (files w)) ->
    (match output with Some folder => folder = "" | None => True end ->
     files w' = files w) ->
    live_step output object_name w (Ok tt) w'.

Lemma load_live_object_step output object_name w :
  live_step output object_name w
    (fst (load_live_object output object_name w))
    (snd (load_live_object output object_name w)).
Proof.
  unfold load_live_object, bind, pure, modify, ret.
  destruct (truthy (describe_object object_name)) eqn:Hd; cbn [negb].
  2:{ apply live_skipped. exact Hd. }
  destruct object_name as [| | |name| |]; try discriminate.
  destruct (live_fields (describe_object (PStr name))) as [fields|e] eqn:Hl.
  2:{ apply live_raised; auto. }
  destruct (schema_of_fields fields) as [schema|e] eqn:Hs.
  2:{ apply live_raised; [exact Hd|]. right. exists fields. auto. }
  destruct output as [folder|].
  - cbn [truthy]. destruct (String.eqb_spec folder "") as [->|Hne]; cbn [negb fst snd].
    + apply (live_loaded_object _ _ _ name fields schema); auto.
    + apply (live_loaded_object _ _ _ name fields schema); auto.
      * right. exists folder. auto.
      * intros ->. contradiction.
  - apply (live_loaded_object _ _ _ name fields schema); auto.
Qed.

(** X1: in live mode, an object whose describe call fails or returns
    nothing is skipped and the other objects are loaded as without it. *)
Theorem live_load_skips_failed_describe
    (pre post : list string) (name : string) (output : option string) (w : world) :
  truthy (describe_object (PStr name)) = false ->
  pre ++ post <> [] ->
  load_object_definitions (Some (pre ++ name :: post)) None output w
  = load_object_definitions (Some (pre ++ post)) None output w.
Proof.
  intros Hd Hne. unfold load_object_definitions, object_names.
  destruct (pre ++ name :: post) as [|x l] eqn:E1; [destruct pre; discriminate|].
  destruct (pre ++ post) as [|y l'] eqn:E2; [contradiction|].
  rewrite <- E1, <- E2, !List.map_app. cbn [List.map].
  rewrite !for_each_app.
  destruct (for_each (load_live_object output) (List.map PStr pre) w) as [[[]|e] w1];
    [|reflexivity].
  cbn [for_each]. unfold bind at 1.
  unfold load_live_object at 1. rewrite Hd. reflexivity.
Qed.

(** The loop of live mode keeps what it loaded for [name]. *)
Lemma load_live_objects_schema output name : forall (names : list pyval) (w w' : world),
  for_each (load_live_object output) names w = (Ok tt, w') ->
  (In (PStr name) names /\ truthy (describe_object (PStr name)) = true) \/
  (exists fields schema,
     live_fields (describe_object (PStr name)) = Ok fields /\
     schema_of_fields fields = Ok schema /\
     object_definitions w !! name = Some schema) ->
  exists fields schema,
    live_fields (describe_object (PStr name)) = Ok fields /\
    schema_of_fields fields = Ok schema /\
    object_definitions w' !! name = Some schema.
Proof.
  induction names as [|n rest IH]; intros w w' Hrun Hcase.
  - injection Hrun as <-. destruct Hcase as [[[] _]|H]. exact H.
  - cbn [for_each] in Hrun. unfold bind at 1 in Hrun.
    pose proof (load_live_object_step output n w) as Hstep.
    destruct (load_live_object output n w) as [[[]|e] w1]; [|discriminate].
    cbn [fst snd] in Hstep. apply (IH w1 w' Hrun).
    inversion Hstep as [Hd| |n' fields schema w1' Hn Hd Hl Hs Hcat Hq Hf Hf']; subst.
    + destruct Hcase as [[[->|Hin] Hd']|H]; [congruence|left; auto|right; exact H].
    + destruct (decide (n' = name)) as [->|Hne].
      * right. exists fields, schema. rewrite Hcat, lookup_insert_eq. auto.
      * destruct Hcase as [[[[= ->]|Hin] Hd']|(fs & sc & H1 & H2 & H3)];
          [contradiction|left; auto|].
        right. exists fs, sc. rewrite Hcat, lookup_insert_ne by exact Hne. auto.
Qed.

(** X2: after a live load that returned, every requested object that the
    provider described has the schema built from its own raw fields. *)
Theorem live_load_gives_schema
    (names : option (list string)) (output : option string) (name : string) (w w' : world) :
  In (PStr name) (object_names names) ->
  truthy (describe_object (PStr name)) = true ->
  load_object_definitions names None output w = (Ok tt, w') ->
  exists fields schema,
    live_fields (describe_object (PStr name)) = Ok fields /\
    schema_of_fields fields = Ok schema /\
    get_object_fields (PStr name) w' = (Ok (Some schema), w').
Proof.
  intros Hin Hd Hrun. unfold load_object_definitions in Hrun.
  destruct (load_live_objects_schema output name _ _ _ Hrun (or_introl (conj Hin Hd)))
    as (fields & schema & Hl & Hs & Hcat).
  exists fields, schema. split; [exact Hl|]. split; [exact Hs|].
  apply get_object_fields_loaded. exact Hcat.
Qed.

(** X3: a raw field that makes the normalisation raise aborts the whole
    live load at that object: the objects before it stay loaded, the
    objects after it are not processed. *)
Theorem live_load_aborts_on_malformed_object
    (pre post : list string) (name : string) (output : option string)
    (w w1 : world) (e : exn) :
  for_each (load_live_object output) (List.map PStr pre) w = (Ok tt, w1) ->
  truthy (describe_object (PStr name)) = true ->
  live_fields (describe_object (PStr name)) = Raise e ->
  load_object_definitions (Some (pre ++ name :: post)) None output w = (Raise e, w1).
Proof.
  intros Hpre Hd Hl. unfold load_object_definitions, object_names.
  destruct (pre ++ name :: post) as [|x l] eqn:E1; [destruct pre; discriminate|].
  rewrite <- E1, List.map_app, for_each_app, Hpre. cbn [List.map for_each].
  unfold bind at 1. unfold load_live_object at 1. rewrite Hd. cbn [negb].
  unfold bind, pure. rewrite Hl. reflexivity.
Qed.

(** A raw field that is not a mapping has no [.get]. *)
Lemma live_fields_not_a_mapping (obj_desc : dict) (f : pyval) (rest : list pyval) :
  dict_get obj_desc (PStr "fields") = Some (PList (f :: rest)) ->
  (forall d, f <> PDict d) ->
  live_fields (PDict obj_desc) = Raise AttributeError.
Proof.
  intros Hf Hnot. unfold live_fields. cbn [py_get obind]. rewrite Hf. cbn [py_iter obind omap].
  destruct f; try reflexivity. destruct (Hnot items eq_refl).
Qed.

(** The loop of live mode never drops a definition and sends no query;
    without a folder to write to it leaves the files alone. *)
Lemma load_live_objects_frame output : forall (names : list pyval) (w : world) o w',
  for_each (load_live_object output) names w = (o, w') ->
  (forall name, is_Some (object_definitions w !! name) ->
                is_Some (object_definitions w' !! name)) /\
  queries w' = queries w /\
  (match output with Some folder => folder = "" | None => True end -> files w' = files w).
Proof.
  induction names as [|n rest IH]; intros w o w' Hrun.
  - injection Hrun as <- <-. auto.
  - cbn [for_each] in Hrun. unfold bind at 1 in Hrun.
    pose proof (load_live_object_step output n w) as Hstep.
    destruct (load_live_object output n w) as [o1 w1]. cbn [fst snd] in Hstep.
    assert ((forall name, is_Some (object_definitions w !! name) ->
                          is_Some (object_definitions w1 !! name)) /\
            queries w1 = queries w /\
            (match output with Some folder => folder = "" | None => True end ->
             files w1 = files w)) as (Hdef1 & Hq1 & Hf1).
    { inversion Hstep as [Hd|e Hd He|n' fields schema w1' Hn Hd Hl Hs Hcat Hq Hf Hf']; subst;
        auto.
      split; [|auto]. intros name Hsome. rewrite Hcat.
      destruct (decide (n' = name)) as [->|Hne].
      - rewrite lookup_insert_eq. eauto.
      - rewrite lookup_insert_ne by exact Hne. exact Hsome. }
    destruct o1 as [[]|e].
    + destruct (IH _ _ _ Hrun) as (Hdef & Hq & Hf).
      split; [auto|]. split; [congruence|]. intros H. rewrite (Hf H). auto.
    + injection Hrun as <- <-. auto.
Qed.

(** ** Loading, snapshot mode *)

(** The loop of snapshot mode returns, and touches only the definitions of
    the objects it finds a usable snapshot for. *)
Lemma load_cached_files_frame names : forall (entries : list (string * document)) (w : world),
  exists w',
    for_each (load_cached_file names) entries w = (Ok tt, w') /\
    files w' = files w /\ queries w' = queries w /\
    (forall name, is_Some (object_definitions w !! name) ->
                  is_Some (object_definitions w' !! name)) /\
    (forall name,
       (forall doc fields schema, (name, doc) ∈ entries ->
          filtered_out names name = false ->
          yaml_safe_load doc = Some (PList fields) ->
          schema_of_fields fields = Ok schema -> False) ->
       object_definitions w' !! name = object_definitions w !! name).
Proof.
  induction entries as [|[n d] rest IH]; intros w.
  - exists w. repeat split; auto.
  - cbn [for_each]. unfold bind at 1.
    destruct (load_cached_file_effect names n d w)
      as [->|(fs & sc & Hf & Hl & Hs & ->)].
    + destruct (IH w) as (w' & Hrun & Hfiles & Hq & Hdef & Hframe).
      exists w'. split; [exact Hrun|]. split; [exact Hfiles|]. split; [exact Hq|].
      split; [exact Hdef|].
      intros name Hnone. apply Hframe. intros doc fields schema Hin.
      apply (Hnone doc fields schema). apply elem_of_cons. right. exact Hin.
    + destruct (IH (set_definition n sc w)) as (w' & Hrun & Hfiles & Hq & Hdef & Hframe).
      exists w'. split; [exact Hrun|]. split; [exact Hfiles|]. split; [exact Hq|].
      split.
      * intros name Hsome. apply Hdef. simpl.
        destruct (decide (n = name)) as [->|Hne].
        -- rewrite lookup_insert_eq. eauto.
        -- rewrite lookup_insert_ne by exact Hne. exact Hsome.
      * intros name Hnone. rewrite Hframe.
        -- simpl. apply lookup_insert_ne. intros ->.
           apply (Hnone d fs sc); auto. apply elem_of_cons. left. reflexivity.
        -- intros doc fields schema Hin.
           apply (Hnone doc fields schema). apply elem_of_cons. right. exact Hin.
Qed.


(** X5: in a folder whose path has no magic character, a snapshot that
    fails to parse, or does not hold a list, or holds a list the schema
    cannot be built from, leaves its object as it was; the load, here
    with a list of names, goes on and returns. *)
Theorem snapshot_load_skips_unusable_snapshot
    (n : string) (l : list string) (cache_folder : string) (output : option string)
    (name : string) (doc : document) (w : world) :
  has_magic cache_folder = false ->
  default ∅ (files w !! cache_folder) !! name = Some doc ->
  match yaml_safe_load doc with
  | Some (PList fields) => exists e, schema_of_fields fields = Raise e
  | _ => True
  end ->
  exists w',
    load_object_definitions (Some (n :: l)) (Some cache_folder) output w = (Ok tt, w') /\
    object_definitions w' !! name = object_definitions w !! name.
Proof.
  intros Hmagic Hdoc Hbad.
  unfold load_object_definitions, bind, get. rewrite (glob_yaml_literal _ _ Hmagic).
  destruct (load_cached_files_frame (Some (n :: l))
              (yaml_files (default ∅ (files w !! cache_folder))) w)
    as (w' & Hrun & _ & _ & _ & Hframe).
  exists w'. split; [exact Hrun|]. apply Hframe.
  intros doc' fields schema Hdoc' _ Hl Hs.
  apply yaml_files_lookup in Hdoc'. destruct Hdoc' as [Hdoc' _].
  rewrite Hdoc in Hdoc'. injection Hdoc' as <-.
  rewrite Hl in Hbad. destruct Hbad as [e He]. congruence.
Qed.

(** X6: in a folder whose path has no magic character, snapshot mode
    gives an object of the list of names the schema of its own snapshot,
    when [*.yaml] lists the file, whatever the other snapshots of the
    folder hold. *)
Theorem snapshot_load_gives_schema
    (n : string) (l : list string) (cache_folder : string) (output : option string)
    (name : string) (doc : document) (fields : list pyval) (schema : dict) (w : world) :
  has_magic cache_folder = false ->
  listed name = true ->
  default ∅ (files w !! cache_folder) !! name = Some doc ->
  filtered_out (Some (n :: l)) name = false ->
  yaml_safe_load doc = Some (PList fields) ->
  schema_of_fields fields = Ok schema ->
  exists w',
    load_object_definitions (Some (n :: l)) (Some cache_folder) output w = (Ok tt, w') /\
    get_object_fields (PStr name) w' = (Ok (Some schema), w').
Proof.
  intros Hmagic Hlisted Hdoc Hf Hl Hs.
  unfold load_object_definitions, bind, get. rewrite (glob_yaml_literal _ _ Hmagic).
  destruct (load_cached_files_lookup (Some (n :: l)) name doc fields schema
              (yaml_files (default ∅ (files w !! cache_folder))) w)
    as (w' & Hrun & Hlook); auto.
  - apply yaml_files_NoDup.
  - apply yaml_files_lookup. auto.
  - exists w'. split; [exact Hrun|]. apply get_object_fields_loaded. exact Hlook.
Qed.

(** X7: [load_object_definitions] never drops a loaded definition and never
    sends a query, in either mode and also when it raises; it writes files
    only in live mode with a non-empty [output]. *)
Theorem load_never_unloads
    (names : option (list string)) (cache_folder output : option string)
    (w : world) :
  let '(o, w') := load_object_definitions names cache_folder output w in
  (forall name, is_Some (object_definitions w !! name) ->
                is_Some (object_definitions w' !! name)) /\
  queries w' = queries w /\
  (cache_folder <> None \/ output = None \/ output = Some "" -> files w' = files w).
Proof.
  destruct cache_folder as [folder|].
  - unfold load_object_definitions, bind, get.
    destruct (load_cached_files_frame names (glob_yaml folder w) w)
      as (w' & Hrun & Hfiles & Hq & Hdef & _).
    rewrite Hrun. auto.
  - unfold load_object_definitions.
    destruct (for_each (load_live_object output) (object_names names) w) as [o w'] eqn:Hrun.
    destruct (load_live_objects_frame output _ _ _ _ Hrun) as (Hdef & Hq & Hf).
    split; [exact Hdef|]. split; [exact Hq|].
    intros [H|[ -> | -> ]]; [congruence|apply Hf; exact I|apply Hf; reflexivity].
Qed.

(** ** Field descriptors and schemas *)

(** [d.get(key)]. *)
Definition item_or_none (d : dict) (key : string) : pyval :=
  default PNone (dict_get d (PStr key)).

(** The descriptor built from a raw field holds the six keys in a fixed
    order; its reference is the first of the raw field's targets ([None]
    when there is none) and its picklist values are the [value] of each
    option, in the order of the provider. *)
Lemma field_info_normalises
    (d : dict) (targets options values : list pyval) :
  dict_get d (PStr "referenceTo") = Some (PList targets) ->
  dict_get d (PStr "picklistValues") = Some (PList options) ->
  omap (fun pv => py_getitem pv (PStr "value")) options = Ok values ->
  field_info (PDict d)
  = Ok (PDict [(PStr "name", item_or_none d "name");
               (PStr "label", item_or_none d "label");
               (PStr "type", item_or_none d "type");
               (PStr "reference", hd PNone targets);
               (PStr "length", item_or_none d "length");
               (PStr "picklistValues", PList values)]).
Proof.
  intros Ht Ho Hv. unfold field_info, item_or_none. cbn [py_get obind].
  rewrite Ht, Ho. cbn [py_iter obind]. rewrite Hv. cbn [obind].
  destruct targets as [|t ts]; reflexivity.
Qed.

(** The raw entry a name stands for: a mapping whose ['name'] equals it. *)
Definition entry_named (k : pyval) (field : pyval) : bool :=
  match field with
  | PDict d =>
      match dict_get d (PStr "name") with
      | Some n => key_eqb n k
      | None => false
      end
  | _ => false
  end.

Lemma schema_add_lookup (acc acc' : dict) (field k : pyval) :
  schema_add acc field = Ok acc' ->
  dict_get acc' k = if entry_named k field then Some field else dict_get acc k.
Proof.
  unfold schema_add, entry_named.
  destruct field as [| | |s|l|d]; try discriminate; cbn [py_contains obind].
  - destruct (str_contains "name" s); [discriminate|]. intros [= <-]. reflexivity.
  - destruct (existsb _ l); [discriminate|]. intros [= <-]. reflexivity.
  - destruct (dict_get d (PStr "name")) as [n|] eqn:Hn.
    + cbn [py_getitem hashable]. rewrite Hn. cbn [obind].
      destruct (hashable n); [|discriminate]. intros [= <-]. apply dict_get_set.
    + intros [= <-]. reflexivity.
Qed.

Lemma schema_fold_lookup (k : pyval) : forall (fields : list pyval) (acc schema : dict),
  ofold schema_add acc fields = Ok schema ->
  dict_get schema k =
  match last (List.filter (entry_named k) fields) with
  | Some field => Some field
  | None => dict_get acc k
  end.
Proof.
  induction fields as [|f rest IH]; intros acc schema Hrun.
  - injection Hrun as <-. reflexivity.
  - cbn [ofold] in Hrun.
    destruct (schema_add acc f) as [acc'|e] eqn:Hadd; [|discriminate].
    cbn [obind] in Hrun. rewrite (IH _ _ Hrun), (schema_add_lookup _ _ _ k Hadd).
    cbn [List.filter].
    destruct (entry_named k f); [|reflexivity].
    destruct (List.filter (entry_named k) rest) as [|g l]; [reflexivity|].
    change (last (f :: g :: l)) with (last (g :: l)).
    destruct (last (g :: l)) eqn:El; [reflexivity|].
    apply last_None in El. discriminate.
Qed.

(** X8: when the schema of a field list can be built, a name is in it
    exactly when a mapping of the list bears it, and it stands for the last
    such mapping: of two raw fields with one name the later one wins. *)
Theorem schema_of_fields_last_wins (fields : list pyval) (schema : dict) (k : pyval) :
  schema_of_fields fields = Ok schema ->
  dict_get schema k = last (List.filter (entry_named k) fields).
Proof.
  intros H. rewrite (schema_fold_lookup k fields [] schema H).
  destruct (last _); reflexivity.
Qed.

(** ** Reference fields *)

Lemma dict_set_fresh (d : dict) (k v : pyval) :
  dict_get d k = None -> dict_set d k v = d ++ [(k, v)].
Proof.
  induction d as [|[k1 v1] rest IH]; simpl; [reflexivity|].
  destruct (key_eqb k1 k); [discriminate|]. intros H. rewrite IH; auto.
Qed.

Lemma dict_get_app_none (d1 d2 : dict) (k : pyval) :
  dict_get d1 k = None -> dict_get (d1 ++ d2) k = dict_get d2 k.
Proof.
  induction d1 as [|[k1 v1] rest IH]; simpl; [reflexivity|].
  destruct (key_eqb k1 k); [discriminate|]. exact IH.
Qed.

(** A schema as the loaders build it from fields with string names: each
    name stands for a mapping that bears it, and no name comes twice. *)
Definition well_formed_schema (schema : dict) : Prop :=
  List.NoDup (List.map fst schema) /\
  forall k field, In (k, field) schema ->
    exists name d, k = PStr name /\ field = PDict d /\
                   dict_get d (PStr "name") = Some (PStr name).

(** [field.get('reference')] is truthy. *)
Definition has_reference (item : pyval * pyval) : bool :=
  match snd item with
  | PDict d => truthy (item_or_none d "reference")
  | _ => false
  end.

Lemma reference_fold_filter : forall (schema acc : dict),
  List.NoDup (List.map fst schema) ->
  (forall k field, In (k, field) schema ->
     exists name d, k = PStr name /\ field = PDict d /\
                    dict_get d (PStr "name") = Some (PStr name)) ->
  (forall k field, In (k, field) schema -> dict_get acc k = None) ->
  ofold reference_add acc (List.map snd schema) = Ok (acc ++ List.filter has_reference schema).
Proof.
  induction schema as [|[k f] rest IH]; intros acc Hnodup Hwf Hfresh.
  - simpl. rewrite app_nil_r. reflexivity.
  - cbn [List.map ofold snd].
    destruct (Hwf k f (or_introl eq_refl)) as (name & d & -> & -> & Hname).
    cbn [List.map fst] in Hnodup. apply List.NoDup_cons_iff in Hnodup.
    destruct Hnodup as [Hhead Hnodup].
    unfold reference_add at 1. cbn [py_get obind].
    cbn [List.filter]. unfold has_reference at 1, item_or_none. cbn [snd].
    destruct (truthy (default PNone (dict_get d (PStr "reference")))) eqn:Hr.
    + change (match dict_get d (PStr "reference") with Some x => x | None => PNone end)
        with (default PNone (dict_get d (PStr "reference"))).
      rewrite Hr. cbn [py_getitem hashable]. rewrite Hname. cbn [obind hashable].
      rewrite (dict_set_fresh acc (PStr name) (PDict d))
        by (apply (Hfresh (PStr name) (PDict d)); left; reflexivity).
      rewrite IH; auto.
      * rewrite <- app_assoc. reflexivity.
      * intros k' f' Hin. apply (Hwf k' f'). right. exact Hin.
      * intros k' f' Hin. rewrite dict_get_app_none
          by (apply (Hfresh k' f'); right; exact Hin).
        cbn [dict_get]. destruct (key_eqb (PStr name) k') eqn:E; [|reflexivity].
        apply key_eqb_str in E. subst k'. exfalso. apply Hhead.
        apply (List.in_map fst) in Hin. exact Hin.
    + change (match dict_get d (PStr "reference") with Some x => x | None => PNone end)
        with (default PNone (dict_get d (PStr "reference"))).
      rewrite Hr. cbn [obind]. apply IH; auto.
      * intros k' f' Hin. apply (Hwf k' f'). right. exact Hin.
      * intros k' f' Hin. apply (Hfresh k' f'). right. exact Hin.
Qed.

(** X9: for a loaded schema built from fields with string names,
    [get_object_references] returns the fields whose reference is truthy,
    in the order of the schema, and changes nothing. *)
Theorem get_object_references_filters
    (name : string) (schema : dict) (w : world) :
  object_definitions w !! name = Some schema ->
  well_formed_schema schema ->
  get_object_references (PStr name) w = (Ok (List.filter has_reference schema), w).
Proof.
  intros Hlook [Hnodup Hwf]. unfold get_object_references, bind.
  rewrite (get_object_fields_loaded _ _ _ Hlook).
  destruct schema as [|kv rest]; [reflexivity|].
  unfold pure. rewrite (reference_fold_filter (kv :: rest) []); auto.
Qed.

(** ** Enumerating the objects *)

(** X10: [get_all_objects] returns the names of the provider's listing in
    its order when each entry bears a ['name'], and the empty list when the
    describe call fails, when the listing is missing, or when one single
    entry has no ['name']. *)
Theorem get_all_objects_all_or_nothing :
  (sf_describe_global = None -> get_all_objects = []) /\
  (forall d, sf_describe_global = Some (PDict d) ->
     dict_get d (PStr "sobjects") = None -> get_all_objects = []) /\
  (forall d objs names, sf_describe_global = Some (PDict d) ->
     dict_get d (PStr "sobjects") = Some (PList objs) ->
     omap (fun obj => py_getitem obj (PStr "name")) objs = Ok names ->
     get_all_objects = names) /\
  (forall d pre post bad, sf_describe_global = Some (PDict d) ->
     dict_get d (PStr "sobjects") = Some (PList (pre ++ PDict bad :: post)) ->
     dict_get bad (PStr "name") = None ->
     get_all_objects = []).
Proof.
  unfold get_all_objects. split; [intros ->; reflexivity|].
  split; [intros d -> Hnone; cbn [py_getitem hashable]; rewrite Hnone; reflexivity|].
  split.
  - intros d objs names -> Hs Hnames. cbn [py_getitem hashable]. rewrite Hs.
    cbn [obind py_iter]. rewrite Hnames. reflexivity.
  - intros d pre post bad -> Hs Hbad. cbn [py_getitem hashable]. rewrite Hs.
    cbn [obind py_iter].
    assert (exists e, omap (fun obj => py_getitem obj (PStr "name")) (pre ++ PDict bad :: post)
                      = Raise e) as [e ->].
    { clear Hs. induction pre as [|x pre IH]; simpl.
      - rewrite Hbad. eauto.
      - destruct (py_getitem x (PStr "name")); simpl; [|eauto].
        destruct IH as [e ->]. eauto. }
    reflexivity.
Qed.

(** ** Queries *)

Lemma str_items_raises (items : list pyval) (e : exn) :
  str_items items = Raise e -> e = TypeError.
Proof.
  induction items as [|x rest IH]; [discriminate|].
  destruct x; simpl; try (intros [= <-]; reflexivity).
  destruct (str_items rest); simpl; [discriminate|].
  intros [= <-]. apply IH. reflexivity.
Qed.

Lemma planned_query_raises catalog object_name where_ e :
  planned_query catalog object_name where_ = Raise e -> e = TypeError.
Proof.
  unfold planned_query.
  destruct (decide (catalog = ∅)); [discriminate|].
  destruct object_name as [| | |name| |]; cbn [hashable]; try discriminate;
    try (intros [= <-]; reflexivity).
  destruct (catalog !! name) as [[|kv fields]|]; try discriminate.
  unfold str_join.
  destruct (str_items (List.map fst (kv :: fields))) eqn:E; cbn [obind]; [discriminate|].
  intros [= <-]. eapply str_items_raises. exact E.
Qed.

(** X11: [get_object] changes nothing but the log of queries, to which it
    adds at most one query, whose records it returns; an exception of the
    executor is not passed on (the result is the empty list); the only
    exception it raises is [TypeError], before anything is sent. *)
Theorem get_object_effect (object_name : pyval) (where_ : option string) (w : world) :
  let '(o, w') := get_object object_name where_ w in
  object_definitions w' = object_definitions w /\
  files w' = files w /\
  ((queries w' = queries w /\ (o = Ok [] \/ o = Raise TypeError)) \/
   exists query, queries w' = queries w ++ [query] /\ o = Ok (query_records query) /\
                 (sf_query_all query = QRaise -> o = Ok [])) /\
  (forall e, o = Raise e -> e = TypeError /\ w' = w).
Proof.
  rewrite get_object_eq.
  destruct (planned_query (object_definitions w) object_name where_) as [[query|]|e] eqn:Hplan.
  - split; [reflexivity|]. split; [reflexivity|]. split; [|discriminate].
    right. exists query. split; [reflexivity|]. split; [reflexivity|].
    intros Hq. unfold query_records. rewrite Hq. reflexivity.
  - split; [reflexivity|]. split; [reflexivity|]. split; [auto|discriminate].
  - apply planned_query_raises in Hplan. subst e.
    split; [reflexivity|]. split; [reflexivity|]. split; [auto|].
    intros e [= <-]. auto.
Qed.

(** X12: for a loaded schema whose field names are strings,
    [get_object_by_id] sends the select of the object followed by
    [WHERE Id = '...'] with [str(id)] between the quotes as it is, and
    returns the first record of the answer, [None] when there is none. *)
Theorem get_object_by_id_query
    (name : string) (fields : dict) (names : list string) (id : pyval) (w : world) :
  object_definitions w !! name = Some fields ->
  fields <> [] ->
  List.map fst fields = List.map PStr names ->
  let query := ("SELECT " +:+ concat_sep ", " names +:+ " FROM " +:+ name)
                 +:+ " WHERE " +:+ "Id = '" +:+ py_str id +:+ "'" in
  get_object_by_id (PStr name) id w = (Ok (hd PNone (query_records query)), log_query query w).
Proof.
  intros Hlook Hne Hnames. cbv zeta.
  rewrite get_object_by_id_eq,
    (planned_query_loaded _ _ _ _ (Some (id_predicate id)) Hlook Hne Hnames).
  reflexivity.
Qed.

(** ** The resolved key *)

(** X13: the key a fetched record is stored under is the name of the field
    itself exactly when the name does not contain ["__c"]: such a field is
    overwritten, every other field gets a key of its own. *)
Theorem resolved_key_is_field_name_iff (name : string) :
  str_replace "__c" "__r" name = name <-> str_contains "__c" name = false.
Proof.
  split.
  - intros H. rewrite <- H. apply str_replace_no_c.
  - apply str_replace_without_c.
Qed.

(** ** More on the resolver *)

Lemma resolved_names_app (a b : dict) :
  resolved_names (a ++ b) = resolved_names a ++ resolved_names b.
Proof.
  induction a as [|[k f] rest IH]; [reflexivity|].
  destruct k; simpl; rewrite ?IH; reflexivity.
Qed.

(** X14: fields that [refs] does not list are neither fetched nor touched:
    when [refs] lists none of the object's reference fields (as [refs=[]]
    does), the record and the world stay as they are. *)
Theorem resolve_references_unrequested
    (object_name : pyval) (refs : option (list string)) (obj : dict) (w : world) (items : dict) :
  get_object_references object_name w = (Ok items, w) ->
  (forall k field, In (k, field) items -> not_requested refs k = true) ->
  resolve_references object_name refs (obj, w) = (Ok tt, (obj, w)).
Proof.
  intros Hrefs Hnot. rewrite resolve_references_eq, Hrefs.
  clear Hrefs. induction items as [|[k f] rest IH]; [reflexivity|].
  rewrite resolve_fields_cons. unfold resolve_step.
  rewrite (Hnot k f (or_introl eq_refl)).
  destruct (truthy (field_value obj k)); apply IH; intros k' f' Hin;
    apply (Hnot k' f'); right; exact Hin.
Qed.

(** X15: when the resolved keys of the object's reference fields are
    pairwise distinct and the call returns, a requested, populated
    reference field whose target the executor finds is embedded: the
    returned record holds the fetched record under the resolved key. *)
Theorem resolve_references_embeds
    (object_name : pyval) (refs : option (list string)) (obj obj' : dict) (w w' : world)
    (items : dict) (name : string) (info target data : pyval) :
  get_object_references object_name w = (Ok items, w) ->
  In (PStr name, info) items ->
  List.NoDup (resolved_names items) ->
  not_requested refs (PStr name) = false ->
  truthy (field_value obj (PStr name)) = true ->
  py_getitem info (PStr "reference") = Ok target ->
  fetch (object_definitions w) target (field_value obj (PStr name)) = Ok data ->
  truthy data = true ->
  resolve_references object_name refs (obj, w) = (Ok tt, (obj', w')) ->
  dict_get obj' (PStr (str_replace "__c" "__r" name)) = Some data.
Proof.
  intros Hrefs Hin Hnodup Hreq Hpop Htarget Hfetch Hdata Hrun.
  rewrite resolve_references_eq, Hrefs in Hrun.
  apply List.in_split in Hin. destruct Hin as (pre & post & ->).
  rewrite resolved_names_app in Hnodup. cbn [resolved_names] in Hnodup.
  pose proof (List.NoDup_remove_2 _ _ _ Hnodup) as Hfresh.
  rewrite resolve_fields_app in Hrun.
  destruct (resolve_fields refs pre obj w) as [[[]|e] [obj1 w1]] eqn:Hpre; [|discriminate].
  assert (dict_get obj1 (PStr name) = dict_get obj (PStr name)) as Hframe.
  { eapply resolve_fields_frame; [exact Hpre|].
    intros n i Hin [= E]. apply Hfresh. apply List.in_or_app. left.
    destruct (str_contains "__c" name) eqn:Hc.
    - rewrite E, str_replace_no_c in Hc. discriminate.
    - apply str_replace_without_c in Hc. rewrite Hc, E.
      eapply resolved_names_In. exact Hin. }
  assert (field_value obj1 (PStr name) = field_value obj (PStr name)) as Hvalue
    by (unfold field_value; rewrite Hframe; reflexivity).
  pose proof (resolve_fields_catalog _ _ _ _ _ _ _ Hpre) as Hcat.
  rewrite resolve_fields_cons in Hrun. unfold resolve_step in Hrun.
  rewrite Hvalue, Hpop, Hreq, Htarget in Hrun.
  destruct (get_object_by_id_run target (field_value obj (PStr name)) w1) as (wx & Hx & _).
  rewrite Hx, Hcat, Hfetch, Hdata in Hrun. cbn [resolved_key] in Hrun.
  transitivity (dict_get (dict_set obj1 (PStr (str_replace "__c" "__r" name)) data)
                         (PStr (str_replace "__c" "__r" name))).
  - eapply resolve_fields_frame; [exact Hrun|].
    intros n i Hin [= E]. apply Hfresh. apply List.in_or_app. right.
    rewrite E. eapply resolved_names_In. exact Hin.
  - rewrite dict_get_set. cbn [key_eqb]. rewrite String.eqb_refl. reflexivity.
Qed.

(** ** One level of embedding *)

(** One iteration, with the query it sends: a fetch by id of the target of
    the field. *)
Lemma resolve_step_fetch refs f info obj w o obj1 w1 :
  resolve_step refs f info obj w = (o, (obj1, w1)) ->
  (queries w1 = queries w /\ obj1 = obj) \/
  exists query target,
    truthy (field_value obj f) = true /\
    queries w1 = queries w ++ [query] /\
    py_getitem info (PStr "reference") = Ok target /\
    planned_query (object_definitions w) target (Some (id_predicate (field_value obj f)))
      = Ok (Some query) /\
    (obj1 = obj \/
     exists name, f = PStr name /\
       obj1 = dict_set obj (PStr (str_replace "__c" "__r" name))
                       (hd PNone (query_records query))).
Proof.
  unfold resolve_step.
  destruct (truthy (field_value obj f)) eqn:Hv; [|intros [= <- <- <-]; left; auto].
  destruct (not_requested refs f); [intros [= <- <- <-]; left; auto|].
  destruct (py_getitem info (PStr "reference")) as [target|e] eqn:Ht;
    [|intros [= <- <- <-]; left; auto].
  rewrite get_object_by_id_eq.
  destruct (planned_query _ _ _) as [[query|]|e] eqn:Hplan.
  - destruct (truthy (hd PNone (query_records query))).
    + destruct f; cbn [resolved_key]; intros [= <- <- <-]; right; exists query, target;
        do 4 (split; [first [reflexivity | assumption]|]);
        first [left; reflexivity | right; eexists; split; reflexivity].
    + intros [= <- <- <-]. right. exists query, target. auto 6.
  - simpl. intros [= <- <- <-]. left. auto.
  - intros [= <- <- <-]. left. auto.
Qed.

(** No reference field is named like the resolved key of a field that
    comes before it. *)
Fixpoint keys_apart (items : dict) : bool :=
  match items with
  | [] => true
  | (f, _) :: rest =>
      match f with
      | PStr name =>
          forallb (fun item => negb (key_eqb (PStr (str_replace "__c" "__r" name)) (fst item)))
                  rest
      | _ => true
      end && keys_apart rest
  end.

Lemma populated_set (obj : dict) (key : string) (v : pyval) (items : dict) :
  forallb (fun item => negb (key_eqb (PStr key) (fst item))) items = true ->
  populated (dict_set obj (PStr key) v) items = populated obj items.
Proof.
  intros H. unfold populated. apply List.filter_ext_in. intros [g info] Hin.
  rewrite forallb_forall in H. specialize (H _ Hin). cbn [fst] in *.
  unfold field_value. rewrite dict_get_set.
  destruct (key_eqb (PStr key) g); [discriminate|reflexivity].
Qed.

(** The queries of the loop: each is the fetch of the target of one of
    the fields; when the keys are apart there is at most one for each field
    that the record holds a value for at the start. *)
Lemma resolve_fields_fetches refs : forall (items : dict) obj w o obj' w',
  resolve_fields refs items obj w = (o, (obj', w')) ->
  exists sent,
    queries w' = queries w ++ sent /\
    (forall query, In query sent ->
       exists f info target id,
         In (f, info) items /\
         py_getitem info (PStr "reference") = Ok target /\
         planned_query (object_definitions w) target (Some (id_predicate id))
           = Ok (Some query)) /\
    (keys_apart items = true ->
     (List.length sent <= List.length (populated obj items))%nat).
Proof.
  induction items as [|[f info] rest IH]; intros obj w o obj' w' Hrun.
  - rewrite resolve_fields_nil in Hrun. injection Hrun as <- <- <-.
    exists []. rewrite app_nil_r. split; [reflexivity|]. split; [intros q []|].
    intros _. simpl. lia.
  - rewrite resolve_fields_cons in Hrun.
    destruct (resolve_step refs f info obj w) as [o1 [obj1 w1]] eqn:Hstep.
    pose proof (resolve_step_effect _ _ _ _ _ _ _ _ Hstep) as Heff.
    assert (object_definitions w1 = object_definitions w) as Hcat
      by (destruct Heff; assumption).
    apply resolve_step_fetch in Hstep.
    assert (exists sent2,
              queries w' = queries w1 ++ sent2 /\
              (forall query, In query sent2 ->
                 exists f' info' target id,
                   In (f', info') rest /\
                   py_getitem info' (PStr "reference") = Ok target /\
                   planned_query (object_definitions w1) target (Some (id_predicate id))
                     = Ok (Some query)) /\
              (keys_apart rest = true ->
               (List.length sent2 <= List.length (populated obj1 rest))%nat))
      as (sent2 & Hq2 & Hfor2 & Hlen2).
    { destruct o1 as [[]|e]; [exact (IH _ _ _ _ _ Hrun)|].
      injection Hrun as <- <- <-. exists []. rewrite app_nil_r.
      split; [reflexivity|]. split; [intros q []|]. intros _. simpl. lia. }
    assert (forall query, In query sent2 ->
              exists f' info' target id,
                In (f', info') ((f, info) :: rest) /\
                py_getitem info' (PStr "reference") = Ok target /\
                planned_query (object_definitions w) target (Some (id_predicate id))
                  = Ok (Some query)) as Hfor2'.
    { intros q Hq. destruct (Hfor2 q Hq) as (f' & i' & t & id & Hin & Ht & Hp).
      exists f', i', t, id. rewrite <- Hcat. split; [right; exact Hin|auto]. }
    destruct Hstep as [[Hq1 ->]|(query & target & Hv & Hq1 & Ht & Hplan & Hobj)].
    + exists sent2. split; [congruence|]. split; [exact Hfor2'|].
      cbn [keys_apart]. intros Hk. apply andb_true_iff in Hk. destruct Hk as [_ Hk].
      specialize (Hlen2 Hk). unfold populated in *. cbn [List.filter fst].
      destruct (truthy (field_value obj f)); simpl; lia.
    + exists (query :: sent2). split.
      { rewrite Hq2, Hq1, <- app_assoc. reflexivity. }
      split.
      { intros q [<-|Hq]; [|exact (Hfor2' q Hq)].
        exists f, info, target, (field_value obj f). split; [left; reflexivity|auto]. }
      cbn [keys_apart]. intros Hk. apply andb_true_iff in Hk. destruct Hk as [Hhead Hk].
      specialize (Hlen2 Hk).
      assert (populated obj1 rest = populated obj rest) as Hsame.
      { destruct Hobj as [->|(name & -> & ->)]; [reflexivity|].
        apply populated_set. exact Hhead. }
      rewrite Hsame in Hlen2. unfold populated in *. cbn [List.filter fst].
      rewrite Hv. simpl. lia.
Qed.

(** The loop embeds what it fetched for a field. *)
Lemma resolve_fields_embeds refs (items : dict) obj w obj' w' name info target data :
  In (PStr name, info) items ->
  List.NoDup (resolved_names items) ->
  not_requested refs (PStr name) = false ->
  truthy (field_value obj (PStr name)) = true ->
  py_getitem info (PStr "reference") = Ok target ->
  fetch (object_definitions w) target (field_value obj (PStr name)) = Ok data ->
  truthy data = true ->
  resolve_fields refs items obj w = (Ok tt, (obj', w')) ->
  dict_get obj' (PStr (str_replace "__c" "__r" name)) = Some data.
Proof.
  intros Hin Hnodup Hreq Hpop Htarget Hfetch Hdata Hrun.
  apply List.in_split in Hin. destruct Hin as (pre & post & ->).
  rewrite resolved_names_app in Hnodup. cbn [resolved_names] in Hnodup.
  pose proof (List.NoDup_remove_2 _ _ _ Hnodup) as Hfresh.
  rewrite resolve_fields_app in Hrun.
  destruct (resolve_fields refs pre obj w) as [[[]|e] [obj1 w1]] eqn:Hpre; [|discriminate].
  assert (dict_get obj1 (PStr name) = dict_get obj (PStr name)) as Hframe.
  { eapply resolve_fields_frame; [exact Hpre|].
    intros n i Hin [= E]. apply Hfresh. apply List.in_or_app. left.
    destruct (str_contains "__c" name) eqn:Hc.
    - rewrite E, str_replace_no_c in Hc. discriminate.
    - apply str_replace_without_c in Hc. rewrite Hc, E.
      eapply resolved_names_In. exact Hin. }
  assert (field_value obj1 (PStr name) = field_value obj (PStr name)) as Hvalue
    by (unfold field_value; rewrite Hframe; reflexivity).
  pose proof (resolve_fields_catalog _ _ _ _ _ _ _ Hpre) as Hcat.
  rewrite resolve_fields_cons in Hrun. unfold resolve_step in Hrun.
  rewrite Hvalue, Hpop, Hreq, Htarget in Hrun.
  destruct (get_object_by_id_run target (field_value obj (PStr name)) w1) as (wx & Hx & _).
  rewrite Hx, Hcat, Hfetch, Hdata in Hrun. cbn [resolved_key] in Hrun.
  transitivity (dict_get (dict_set obj1 (PStr (str_replace "__c" "__r" name)) data)
                         (PStr (str_replace "__c" "__r" name))).
  - eapply resolve_fields_frame; [exact Hrun|].
    intros n i Hin [= E]. apply Hfresh. apply List.in_or_app. right.
    rewrite E. eapply resolved_names_In. exact Hin.
  - rewrite dict_get_set. cbn [key_eqb]. rewrite String.eqb_refl. reflexivity.
Qed.

(** C3 (amended): [resolve_references] always returns, whatever the
    catalog (cycles included).  It sends at most one query per reference
    field of the object, each the fetch by id of the target of one of these
    fields; when no reference field is named like the resolved key of an
    earlier one, it sends at most one query per reference field that the
    record passed in holds a value for.  Every value of the returned record
    was in the record before or is, as the executor returned it, the first
    record of one of these queries: an embedded record is not resolved in
    turn.  And when the call returns normally and the resolved keys are
    pairwise distinct, the record fetched for a requested field that the
    record passed in holds a value for is embedded under the resolved
    key. *)
Theorem resolve_references_single_level
    (object_name : pyval) (refs : option (list string)) (obj : dict) (w : world) :
  let items := reference_fields w object_name in
  exists o obj' w' sent,
    resolve_references object_name refs (obj, w) = (o, (obj', w')) /\
    object_definitions w' = object_definitions w /\
    queries w' = queries w ++ sent /\
    (List.length sent <= List.length items)%nat /\
    (keys_apart items = true ->
     (List.length sent <= List.length (populated obj items))%nat) /\
    (forall query, In query sent ->
       exists f info target id,
         In (f, info) items /\
         py_getitem info (PStr "reference") = Ok target /\
         planned_query (object_definitions w) target (Some (id_predicate id))
           = Ok (Some query)) /\
    (forall k v, dict_get obj' k = Some v ->
       dict_get obj k = Some v \/
       exists query, In query sent /\ v = hd PNone (query_records query)) /\
    (o = Ok tt -> List.NoDup (resolved_names items) ->
     forall name info target data,
       In (PStr name, info) items ->
       not_requested refs (PStr name) = false ->
       truthy (field_value obj (PStr name)) = true ->
       py_getitem info (PStr "reference") = Ok target ->
       fetch (object_definitions w) target (field_value obj (PStr name)) = Ok data ->
       truthy data = true ->
       dict_get obj' (PStr (str_replace "__c" "__r" name)) = Some data).
Proof.
  cbv zeta. rewrite resolve_references_eq. unfold reference_fields.
  rewrite get_object_references_eq.
  destruct (fst (get_object_references object_name w)) as [items|e].
  - destruct (resolve_fields refs items obj w) as [o [obj' w']] eqn:Hrun.
    destruct (resolve_fields_effect _ _ _ _ _ _ _ Hrun)
      as (Hcat & _ & sent & Hq & Hlen & Hval).
    destruct (resolve_fields_fetches _ _ _ _ _ _ _ Hrun) as (sent' & Hq' & Hfor & Hcount).
    assert (sent' = sent) as -> by (rewrite Hq in Hq'; apply app_inv_head in Hq'; auto).
    exists o, obj', w', sent.
    split; [reflexivity|]. split; [exact Hcat|]. split; [exact Hq|].
    split; [etransitivity; [exact Hlen|apply List.filter_length_le]|].
    split; [exact Hcount|]. split; [exact Hfor|]. split; [exact Hval|].
    intros -> Hnodup name info target data Hin Hreq Hpop Ht Hfetch Hdata.
    eapply resolve_fields_embeds; eauto.
  - exists (Raise e), obj, w, []. rewrite app_nil_r.
    split; [reflexivity|]. split; [reflexivity|]. split; [reflexivity|].
    split; [simpl; lia|]. split; [intros _; simpl; lia|]. split; [intros q []|].
    split; [auto|]. intros [=].
Qed.

(** ** Pretty printing

    What [pretty_print_object] prints is the list of lines it hands to
    [print], oldest first. *)

(** [lambda f: f.get('label', f['name'])]: the default is evaluated before
    the call. *)
Definition sort_key (f : pyval) : outcome pyval :=
  match f with
  | PDict d =>
      match dict_get d (PStr "name") with
      | Some name => Ok (default name (dict_get d (PStr "label")))
      | None => Raise KeyError
      end
  | _ => Raise AttributeError
  end.

(** [a < b] between two strings or two numbers. *)
Definition key_lt (a b : pyval) : bool :=
  match a, b with
  | PStr x, PStr y => String.ltb x y
  | _, _ =>
      match key_num a, key_num b with
      | Some x, Some y => (x <? y)%Z
      | _, _ => false
      end
  end.

Definition is_str (k : pyval) : bool := match k with PStr _ => true | _ => false end.
Definition is_num (k : pyval) : bool := match key_num k with Some _ => true | None => false end.
Definition is_list (k : pyval) : bool := match k with PList _ => true | _ => false end.

(** A stable sort of items that carry their keys: an item goes before the
    items, later in the input, whose key is not smaller. *)
Fixpoint insert_keyed (x : pyval * pyval) (l : list (pyval * pyval)) : list (pyval * pyval) :=
  match l with
  | [] => [x]
  | y :: rest => if key_lt (fst y) (fst x) then y :: insert_keyed x rest else x :: l
  end.

Fixpoint stable_sort (l : list (pyval * pyval)) : list (pyval * pyval) :=
  match l with
  | [] => []
  | x :: rest => insert_keyed x (stable_sort rest)
  end.

(** [sorted(items, key=key)].  Strings sort among strings and numbers
    among numbers; with two items or more, a key that is [None] or a dict,
    or strings together with numbers, meet in some comparison, which raises
    [TypeError].  With a list among the keys the outcome depends on the
    comparisons the sort happens to make: that case is left out ([None]). *)
Definition py_sorted (key : pyval -> outcome pyval) (items : list pyval)
    : option (outcome (list pyval)) :=
  match omap key items with
  | Raise e => Some (Raise e)
  | Ok keys =>
      match keys with
      | [] | [_] => Some (Ok items)
      | _ =>
          if forallb is_str keys || forallb is_num keys
          then Some (Ok (List.map snd (stable_sort (List.combine keys items))))
          else if existsb is_list keys then None
          else Some (Raise TypeError)
      end
  end.

(** [' ' * indent]. *)
Definition spaces (indent : Z) : string :=
  String.concat "" (List.repeat " " (Z.to_nat indent)).

(** The line printed for one field. *)
Definition field_line (prefix : string) (obj : dict) (field_info : pyval) : outcome string :=
  (do field_name <~ py_getitem field_info (PStr "name");
   do label <~ py_get field_info "label" field_name;
   if hashable field_name
   then Ok (prefix +:+ py_str label +:+ " (" +:+ py_str field_name +:+ "): "
              +:+ py_str (default PNone (dict_get obj field_name)))
   else Raise TypeError)%outcome.

Definition print_line (line : string) : M (list string) unit :=
  modify (fun printed => printed ++ [line]).

Definition print_field (prefix : string) (obj : dict) (field_info : pyval)
    : M (list string) unit :=
  (do line <- pure (field_line prefix obj field_info); print_line line)%monad.

Definition header_line (prefix : string) (object_name : pyval) : string :=
  prefix +:+ "---- Object: " +:+ py_str object_name +:+ " ----".

Definition pretty_print_object (obj : dict) (object_name : pyval) (indent : Z) (w : world)
    : option (M (list string) unit) :=
  match fst (get_object_fields object_name w) with
  | Raise e => Some (raise e)
  | Ok (Some ((_ :: _) as fields)) =>
      let prefix := spaces indent in
      match py_sorted sort_key (List.map snd fields) with
      | None => None
      | Some sorted =>
          Some (do _ <- print_line (header_line prefix object_name);
                do sorted_fields <- pure sorted;
                for_each (print_field prefix obj) sorted_fields)%monad
      end
  | Ok _ => Some (ret tt)
  end.

(** [a]'s label is not after [b]'s. *)
Definition label_le (a b : pyval) : Prop :=
  exists ka kb, sort_key a = Ok ka /\ sort_key b = Ok kb /\ key_lt kb ka = false.

Lemma key_lt_asym (a b : pyval) : key_lt a b = true -> key_lt b a = false.
Proof.
  destruct a, b; simpl; try discriminate; try (intros H; apply Z.ltb_lt in H; apply Z.ltb_ge; lia).
  unfold String.ltb. rewrite (String.compare_antisym s0 s).
  destruct (String.compare s s0); simpl; congruence.
Qed.

Lemma insert_keyed_perm (x : pyval * pyval) (l : list (pyval * pyval)) :
  Permutation (insert_keyed x l) (x :: l).
Proof.
  induction l as [|y rest IH]; simpl; [reflexivity|].
  destruct (key_lt (fst y) (fst x)); [|reflexivity].
  rewrite IH. apply perm_swap.
Qed.

Lemma stable_sort_perm (l : list (pyval * pyval)) : Permutation (stable_sort l) l.
Proof.
  induction l as [|x rest IH]; simpl; [reflexivity|].
  rewrite insert_keyed_perm. apply perm_skip. exact IH.
Qed.

Definition keyed_le (a b : pyval * pyval) : Prop := key_lt (fst b) (fst a) = false.

Lemma insert_keyed_sorted (x : pyval * pyval) (l : list (pyval * pyval)) :
  Sorted keyed_le l -> Sorted keyed_le (insert_keyed x l).
Proof.
  induction l as [|y rest IH]; intros Hs; simpl.
  - repeat constructor.
  - destruct (key_lt (fst y) (fst x)) eqn:E.
    + apply Sorted_inv in Hs. destruct Hs as [Hrest Hhd].
      constructor; [apply IH; exact Hrest|].
      destruct rest as [|z rest']; simpl.
      * constructor. apply key_lt_asym. exact E.
      * destruct (key_lt (fst z) (fst x)).
        -- constructor. apply HdRel_inv in Hhd. exact Hhd.
        -- constructor. apply key_lt_asym. exact E.
    + constructor; [exact Hs|]. constructor. exact E.
Qed.

Lemma stable_sort_sorted (l : list (pyval * pyval)) : Sorted keyed_le (stable_sort l).
Proof.
  induction l as [|x rest IH]; simpl; [constructor|].
  apply insert_keyed_sorted. exact IH.
Qed.

Lemma omap_combine {A B} (f : A -> outcome B) : forall (xs : list A) (ys : list B),
  omap f xs = Ok ys -> List.Forall (fun p => f (snd p) = Ok (fst p)) (List.combine ys xs) /\
                       List.map snd (List.combine ys xs) = xs.
Proof.
  induction xs as [|x rest IH]; intros ys H.
  - injection H as <-. split; [constructor|reflexivity].
  - cbn [omap] in H. destruct (f x) as [y|e] eqn:E; [|discriminate].
    cbn [obind] in H. destruct (omap f rest) as [ys'|e]; [|discriminate].
    injection H as <-. destruct (IH ys' eq_refl) as [H1 H2].
    split; [constructor; [exact E|exact H1]|]. simpl. rewrite H2. reflexivity.
Qed.

Lemma sorted_undecorate (l : list (pyval * pyval)) :
  List.Forall (fun p => sort_key (snd p) = Ok (fst p)) l ->
  Sorted keyed_le l -> Sorted label_le (List.map snd l).
Proof.
  induction l as [|x rest IH]; intros Hall Hs; [constructor|].
  apply List.Forall_cons_iff in Hall. destruct Hall as [Hx Hall].
  apply Sorted_inv in Hs. destruct Hs as [Hrest Hhd].
  simpl. constructor; [apply IH; assumption|].
  destruct rest as [|y rest']; simpl; constructor.
  apply HdRel_inv in Hhd. apply List.Forall_cons_iff in Hall. destruct Hall as [Hy _].
  exists (fst x), (fst y). auto.
Qed.

(** [sorted] returns a permutation of the items, ordered by key. *)
Lemma py_sorted_ok (items sorted : list pyval) :
  py_sorted sort_key items = Some (Ok sorted) ->
  Permutation sorted items /\ Sorted label_le sorted.
Proof.
  unfold py_sorted. destruct (omap sort_key items) as [keys|e] eqn:Hk; [|discriminate].
  destruct (omap_combine sort_key items keys Hk) as [Hall Hmap].
  assert (Permutation (List.map snd (stable_sort (List.combine keys items))) items /\
          Sorted label_le (List.map snd (stable_sort (List.combine keys items)))) as Hgood.
  { split.
    - rewrite <- Hmap at 2. apply Permutation_map. apply stable_sort_perm.
    - apply sorted_undecorate; [|apply stable_sort_sorted].
      eapply Permutation_Forall; [|exact Hall].
      symmetry. apply stable_sort_perm. }
  destruct keys as [|k1 [|k2 keys]].
  - intros [= <-]. destruct items; [|discriminate]. split; constructor.
  - intros [= <-]. split; [reflexivity|].
    destruct items as [|x [|y r]]; simpl in Hmap; try discriminate Hmap; repeat constructor.
  - destruct (forallb is_str (k1 :: k2 :: keys) || forallb is_num (k1 :: k2 :: keys)).
    + intros [= <-]. exact Hgood.
    + destruct (existsb is_list (k1 :: k2 :: keys)); discriminate.
Qed.

(** A field as the loaders store it: a mapping with a hashable ['name']. *)
Definition printable_field (field : pyval) : Prop :=
  exists d name, field = PDict d /\ dict_get d (PStr "name") = Some name /\
                 hashable name = true.

Lemma field_line_printable prefix obj field :
  printable_field field -> exists line, field_line prefix obj field = Ok line.
Proof.
  intros (d & name & -> & Hname & Hh). unfold field_line.
  cbn [py_getitem hashable]. rewrite Hname. cbn [obind py_get]. rewrite Hh. eauto.
Qed.

Lemma print_fields_lines prefix obj : forall (fields : list pyval),
  List.Forall printable_field fields ->
  exists lines,
    omap (field_line prefix obj) fields = Ok lines /\
    forall printed, for_each (print_field prefix obj) fields printed
                    = (Ok tt, printed ++ lines).
Proof.
  induction fields as [|f rest IH]; intros Hall.
  - exists []. split; [reflexivity|]. intros printed. rewrite app_nil_r. reflexivity.
  - apply List.Forall_cons_iff in Hall. destruct Hall as [Hf Hall].
    destruct (field_line_printable prefix obj f Hf) as [line Hline].
    destruct (IH Hall) as (lines & Hlines & Hrun).
    exists (line :: lines). split.
    + cbn [omap]. rewrite Hline, Hlines. reflexivity.
    + intros printed. cbn [for_each]. unfold bind at 1, print_field, bind, pure, print_line, modify.
      rewrite Hline, Hrun, <- app_assoc. reflexivity.
Qed.

Lemma string_keys (items : list pyval) :
  List.Forall (fun field => exists label, sort_key field = Ok (PStr label)) items ->
  exists keys, omap sort_key items = Ok keys /\ forallb is_str keys = true.
Proof.
  induction items as [|x rest IH]; intros Hall.
  - exists []. split; reflexivity.
  - apply List.Forall_cons_iff in Hall. destruct Hall as [[label Hx] Hall].
    destruct (IH Hall) as (keys & Hk & Hs).
    exists (PStr label :: keys). cbn [omap]. rewrite Hx, Hk. split; [reflexivity|exact Hs].
Qed.

(** X16: for a loaded schema whose fields carry string labels (or, without
    the key ['label'], string names), [pretty_print_object] prints the
    header and then one line for each field of the schema, each field
    once, ordered by label. *)
Theorem pretty_print_object_sorted
    (obj : dict) (name : string) (schema : dict) (indent : Z) (w : world) :
  object_definitions w !! name = Some schema ->
  schema <> [] ->
  List.Forall printable_field (List.map snd schema) ->
  List.Forall (fun field => exists label, sort_key field = Ok (PStr label))
              (List.map snd schema) ->
  exists program printed lines,
    pretty_print_object obj (PStr name) indent w = Some program /\
    program [] = (Ok tt, header_line (spaces indent) (PStr name) :: lines) /\
    omap (field_line (spaces indent) obj) printed = Ok lines /\
    Permutation printed (List.map snd schema) /\
    Sorted label_le printed.
Proof.
  intros Hlook Hne Hprintable Hlabels.
  unfold pretty_print_object. rewrite (get_object_fields_loaded _ _ _ Hlook). cbn [fst].
  destruct schema as [|kv rest]; [contradiction|].
  destruct (string_keys _ Hlabels) as (keys & Hkeys & Hstr).
  assert (exists sorted, py_sorted sort_key (List.map snd (kv :: rest)) = Some (Ok sorted))
    as [sorted Hsorted].
  { unfold py_sorted. rewrite Hkeys. destruct keys as [|k1 [|k2 keys]]; eauto.
    rewrite Hstr. cbn [orb]. eauto. }
  destruct (py_sorted_ok _ _ Hsorted) as [Hperm Hord].
  cbv zeta. rewrite Hsorted.
  assert (List.Forall printable_field sorted) as Hall
    by (eapply Permutation_Forall; [symmetry; exact Hperm|exact Hprintable]).
  destruct (print_fields_lines (spaces indent) obj sorted Hall) as (lines & Hlines & Hrun).
  eexists. exists sorted, lines. split; [reflexivity|].
  split; [|auto].
  unfold bind at 1, print_line, modify. unfold bind at 1, pure.
  rewrite Hrun. reflexivity.
Qed.

(** X17: with two fields or more, when the sort keys are neither all
    strings nor all numbers, and none of them is a list (lists are ordered
    among themselves, which is not modelled), as when one label is [None],
    the sort raises [TypeError]: only the header has been printed. *)
Theorem pretty_print_object_mixed_labels
    (obj : dict) (name : string) (schema : dict) (keys : list pyval) (indent : Z) (w : world) :
  object_definitions w !! name = Some schema ->
  omap sort_key (List.map snd schema) = Ok keys ->
  (2 <= List.length keys)%nat ->
  forallb is_str keys = false ->
  forallb is_num keys = false ->
  existsb is_list keys = false ->
  exists program,
    pretty_print_object obj (PStr name) indent w = Some program /\
    program [] = (Raise TypeError, [header_line (spaces indent) (PStr name)]).
Proof.
  intros Hlook Hkeys Hlen Hs Hn Hl.
  unfold pretty_print_object. rewrite (get_object_fields_loaded _ _ _ Hlook). cbn [fst].
  destruct schema as [|kv rest].
  { injection Hkeys as <-. simpl in Hlen. lia. }
  cbv zeta. unfold py_sorted. rewrite Hkeys.
  destruct keys as [|k1 [|k2 keys]]; [simpl in Hlen; lia|simpl in Hlen; lia|].
  rewrite Hs, Hn, Hl. cbn [orb].
  eexists. split; reflexivity.
Qed.

(** X18: a descriptor built in live mode from a raw field without a
    ['label'] has the label [None], not a missing label: the printer's
    fall-back to the name does not apply to it. *)
Theorem live_field_without_label_sorts_as_none (d : dict) (info : pyval) :
  field_info (PDict d) = Ok info ->
  dict_get d (PStr "label") = None ->
  sort_key info = Ok PNone.
Proof.
  unfold field_info. cbn [py_get obind]. intros H Hlabel. rewrite Hlabel in H.
  destruct (if truthy _ then _ else _); cbn [obind] in H; [|discriminate].
  destruct (py_iter _); cbn [obind] in H; [|discriminate].
  destruct (omap _ _); cbn [obind] in H; [|discriminate].
  injection H as <-. reflexivity.
Qed.

End Salesforce.

(** * A sample org

    A metadata provider, a query executor, a YAML codec and a pattern
    matcher to run the functions on: objects with a reference cycle
    (Account -> User -> Account), and an executor that returns the records
    whose [Id] is the id of the predicate of the query. *)

(** [repr(v)], for strings without quotes, backslashes and control
    characters. *)
Fixpoint py_repr (v : pyval) : string :=
  match v with
  | PNone => "None"
  | PBool true => "True"
  | PBool false => "False"
  | PInt n => str_of_Z n
  | PStr s => "'" +:+ s +:+ "'"
  | PList l => "[" +:+ concat_sep ", " (List.map py_repr l) +:+ "]"
  | PDict d =>
      "{" +:+ concat_sep ", "
                (List.map (fun kv => let '(k, x) := kv in py_repr k +:+ ": " +:+ py_repr x) d)
          +:+ "}"
  end.

(** A raw field as the describe call returns it. *)
Definition raw_field (name label ty : string) (targets options : list string) : pyval :=
  PDict [(PStr "name", PStr name); (PStr "label", PStr label); (PStr "type", PStr ty);
         (PStr "referenceTo", PList (List.map PStr targets)); (PStr "length", PInt 18);
         (PStr "picklistValues",
          PList (List.map (fun o => PDict [(PStr "active", PBool true); (PStr "value", PStr o)])
                          options))].

Definition describe_result (fields : list pyval) : pyval :=
  PDict [(PStr "fields", PList fields)].

Definition account_fields : list pyval :=
  [raw_field "Id" "Account ID" "id" [] [];
   raw_field "Name" "Account Name" "string" [] [];
   raw_field "OwnerId" "Owner ID" "reference" ["User"] []].

Definition user_fields : list pyval :=
  [raw_field "Id" "User ID" "id" [] [];
   raw_field "Name" "Full Name" "string" [] [];
   raw_field "ManagerId" "Manager ID" "reference" ["User"] [];
   raw_field "Account__c" "Account" "reference" ["Account"] []].

Definition contact_fields : list pyval :=
  [raw_field "Id" "Contact ID" "id" [] [];
   raw_field "Name" "Full Name" "string" [] []].

Definition case_fields : list pyval :=
  [raw_field "Id" "Case ID" "id" [] [];
   raw_field "Subject" "Subject" "string" [] [];
   raw_field "Status" "Status" "picklist" [] ["New"; "Working"; "Closed"];
   raw_field "OwnerId" "Owner ID" "reference" ["User"] [];
   raw_field "Parent__c" "Parent" "reference" ["Account"] [];
   raw_field "Backup__c" "Backup" "reference" ["Contact"] [];
   raw_field "Escalated_To__c" "Escalated To" "reference" ["User"] []].

(** A lead whose first raw field has no ['name']. *)
Definition lead_fields : list pyval :=
  [PDict [(PStr "label", PStr "Mystery"); (PStr "type", PStr "string")];
   raw_field "Id" "Lead ID" "id" [] []].

Definition demo_describe (name : string) : option pyval :=
  if String.eqb name "Account" then Some (describe_result account_fields)
  else if String.eqb name "User" then Some (describe_result user_fields)
  else if String.eqb name "Contact" then Some (describe_result contact_fields)
  else if String.eqb name "Case" then Some (describe_result case_fields)
  else if String.eqb name "Lead" then Some (describe_result lead_fields)
  else None.

Definition demo_describe_global : option pyval :=
  Some (PDict [(PStr "sobjects",
                PList [PDict [(PStr "name", PStr "Account")];
                       PDict [(PStr "name", PStr "User")]])]).

Definition user_ann : pyval :=
  PDict [(PStr "Id", PStr "005A"); (PStr "Name", PStr "Ann");
         (PStr "ManagerId", PStr "005B"); (PStr "Account__c", PStr "001A")].

Definition user_bob : pyval :=
  PDict [(PStr "Id", PStr "005B"); (PStr "Name", PStr "Bob");
         (PStr "ManagerId", PNone); (PStr "Account__c", PStr "001A")].

Definition account_acme : pyval :=
  PDict [(PStr "Id", PStr "001A"); (PStr "Name", PStr "Acme"); (PStr "OwnerId", PStr "005A")].

(** The text between the quotes of a predicate [Id = '...']. *)
Fixpoint drop_closing_quote (s : string) : option string :=
  match s with
  | EmptyString => None
  | String c EmptyString => if Ascii.eqb c "'" then Some EmptyString else None
  | String c rest => option_map (String c) (drop_closing_quote rest)
  end.

Definition predicate_id (predicate : string) : option string :=
  match strip_prefix "Id = '" predicate with
  | Some rest => drop_closing_quote rest
  | None => None
  end.

(** The records of [table] whose [Id] is [id]. *)
Definition with_id (id : string) (table : list pyval) : list pyval :=
  List.filter
    (fun record =>
       match record with
       | PDict d =>
           match dict_get d (PStr "Id") with
           | Some (PStr record_id) => String.eqb record_id id
           | _ => false
           end
       | _ => false
       end) table.

(** The answer to a query on [table]: every record without a predicate,
    the records with the id of a predicate [Id = '...']; any other
    predicate is refused. *)
Definition answer (select : string) (table : list pyval) (query : string) : option query_response :=
  match strip_prefix select query with
  | Some EmptyString => Some (QResult (Some table))
  | Some rest =>
      match strip_prefix " WHERE " rest with
      | Some predicate =>
          match predicate_id predicate with
          | Some id => Some (QResult (Some (with_id id table)))
          | None => Some QRaise
          end
      | None => None
      end
  | None => None
  end.

(** Users are stored with Bob first; queries on any other object fail. *)
Definition demo_query_all (query : string) : query_response :=
  match answer "SELECT Id, Name, ManagerId, Account__c FROM User" [user_bob; user_ann] query with
  | Some r => r
  | None =>
      match answer "SELECT Id, Name, OwnerId FROM Account" [account_acme] query with
      | Some r => r
      | None => QRaise
      end
  end.

(** A codec that keeps the value as it is. *)
Definition demo_dump (v : pyval) : pyval := v.
Definition demo_safe_load (doc : pyval) : option pyval := Some doc.

(** How [glob] matches a folder pattern against a path, for relative
    paths made of plain components: component by component, a component
    without magic characters by equality, one with magic characters as
    [fnmatch] does ([*], [?], [[...]] and [[!...]] with single characters
    and ranges; a [[] without its []] stands for itself), a leading dot
    being matched by a leading dot only. *)
Inductive glob_token : Type :=
| TAny
| TOne
| TChar (c : ascii)
| TSet (negated : bool) (members : list ascii).

Fixpoint until_close (s : list ascii) : option (list ascii * list ascii) :=
  match s with
  | [] => None
  | c :: rest =>
      if Ascii.eqb c "]" then Some ([], rest)
      else match until_close rest with
           | Some (members, after) => Some (c :: members, after)
           | None => None
           end
  end.

Definition read_set (s : list ascii) : option (bool * list ascii * list ascii) :=
  let '(negated, body) :=
    match s with
    | c :: rest => if Ascii.eqb c "!" then (true, rest) else (false, s)
    | [] => (false, s)
    end in
  match body with
  | c :: rest =>
      if Ascii.eqb c "]"
      then match until_close rest with
           | Some (members, after) => Some (negated, c :: members, after)
           | None => None
           end
      else match until_close body with
           | Some (members, after) => Some (negated, members, after)
           | None => None
           end
  | [] => None
  end.

Fixpoint glob_tokens (fuel : nat) (pattern : list ascii) : list glob_token :=
  match fuel, pattern with
  | S fuel, c :: rest =>
      if Ascii.eqb c "*" then TAny :: glob_tokens fuel rest
      else if Ascii.eqb c "?" then TOne :: glob_tokens fuel rest
      else if Ascii.eqb c "["
           then match read_set rest with
                | Some (negated, members, after) => TSet negated members :: glob_tokens fuel after
                | None => TChar c :: glob_tokens fuel rest
                end
           else TChar c :: glob_tokens fuel rest
  | _, _ => []
  end.

Fixpoint in_set (members : list ascii) (c : ascii) : bool :=
  match members with
  | [] => false
  | a :: rest =>
      match rest with
      | dash :: b :: rest' =>
          if Ascii.eqb dash "-"
          then (Nat.leb (nat_of_ascii a) (nat_of_ascii c)
                && Nat.leb (nat_of_ascii c) (nat_of_ascii b))
               || in_set rest' c
          else Ascii.eqb a c || in_set rest c
      | _ => Ascii.eqb a c || in_set rest c
      end
  end.

Definition token_matches (t : glob_token) (c : ascii) : bool :=
  match t with
  | TAny | TOne => true
  | TChar a => Ascii.eqb a c
  | TSet negated members => xorb negated (in_set members c)
  end.

Fixpoint match_tokens (ts : list glob_token) : list ascii -> bool :=
  match ts with
  | [] => fun s => match s with [] => true | _ :: _ => false end
  | TAny :: ts' =>
      fix star (s : list ascii) : bool :=
        match_tokens ts' s || match s with [] => false | _ :: s' => star s' end
  | t :: ts' =>
      fun s => match s with [] => false | c :: s' => token_matches t c && match_tokens ts' s' end
  end.

Definition magic_char (c : ascii) : bool :=
  Ascii.eqb c "*" || Ascii.eqb c "?" || Ascii.eqb c "[".

Definition component_matches (pattern name : list ascii) : bool :=
  if existsb magic_char pattern
  then match_tokens (glob_tokens (List.length pattern) pattern) name
       && (match pattern, name with
           | p :: _, c :: _ => Ascii.eqb p "." || negb (Ascii.eqb c ".")
           | _, _ => true
           end)
  else bool_decide (pattern = name).

Fixpoint split_path (s : list ascii) : list (list ascii) :=
  match s with
  | [] => [[]]
  | c :: rest =>
      match split_path rest with
      | component :: components =>
          if Ascii.eqb c "/" then [] :: component :: components
          else (c :: component) :: components
      | [] => [[c]]
      end
  end.

Fixpoint components_match (patterns names : list (list ascii)) : bool :=
  match patterns, names with
  | [], [] => true
  | p :: patterns', n :: names' => component_matches p n && components_match patterns' names'
  | _, _ => false
  end.

Definition demo_glob_match (pattern path : string) : bool :=
  components_match (split_path (list_ascii_of_string pattern))
                   (split_path (list_ascii_of_string path)).

(** The pattern [cache[1]] matches the folder [cache1], not the folder
    [cache[1]]. *)
Example glob_reads_brackets :
  demo_glob_match "cache[1]" "cache1" = true /\
  demo_glob_match "cache[1]" "cache[1]" = false /\
  demo_glob_match "cache[0-9]" "cache7" = true /\
  demo_glob_match "*/cache" "old/cache" = true /\
  demo_glob_match "*" ".git" = false.
Proof. vm_compute. repeat split. Qed.

Definition empty_world : world pyval := World pyval ∅ ∅ [].

Definition demo_load (names : option (list string)) (cache_folder output : option string)
    : M (world pyval) unit :=
  load_object_definitions demo_describe demo_describe_global pyval demo_dump demo_safe_load
    demo_glob_match names cache_folder output.

(** The world after [load_object_definitions(['Case', 'Account', 'User', 'Contact'])]. *)
Definition demo_world : world pyval :=
  snd (demo_load (Some ["Case"; "Account"; "User"; "Contact"]) None None empty_world).

Definition case_record : dict :=
  [(PStr "Id", PStr "500A"); (PStr "Subject", PStr "Printer on fire");
   (PStr "Status", PStr "New"); (PStr "OwnerId", PStr "005A");
   (PStr "Parent__c", PStr "001A"); (PStr "Backup__c", PStr "003A");
   (PStr "Escalated_To__c", PNone)].

Definition demo_resolve (object_name : string) (refs : option (list string)) (obj : dict)
    (w : world pyval) : outcome unit * (dict * world pyval) :=
  resolve_references demo_query_all pyval py_repr (PStr object_name) refs (obj, w).

(** ** The resolver on the sample org *)

(** The case after [resolve_references(case, 'Case')]: the owner's record
    stands where the owner's id was, the parent account is added under
    [Parent__r], the backup contact could not be fetched, the empty
    reference was passed over. *)
Example resolve_references_case :
  let '(o, (obj, w)) := demo_resolve "Case" None case_record demo_world in
  o = Ok tt /\
  obj = [(PStr "Id", PStr "500A"); (PStr "Subject", PStr "Printer on fire");
         (PStr "Status", PStr "New"); (PStr "OwnerId", user_ann);
         (PStr "Parent__c", PStr "001A"); (PStr "Backup__c", PStr "003A");
         (PStr "Escalated_To__c", PNone); (PStr "Parent__r", account_acme)] /\
  queries pyval w =
    ["SELECT Id, Name, ManagerId, Account__c FROM User WHERE Id = '005A'";
     "SELECT Id, Name, OwnerId FROM Account WHERE Id = '001A'";
     "SELECT Id, Name FROM Contact WHERE Id = '003A'"].
Proof. vm_compute. repeat split. Qed.

(** Account refers to User and User to Account: the embedded user keeps
    the id of its account, and one query is sent. *)
Example resolve_references_cycle :
  let '(o, (obj, w)) :=
    demo_resolve "Account" None
      [(PStr "Id", PStr "001A"); (PStr "Name", PStr "Acme"); (PStr "OwnerId", PStr "005A")]
      demo_world in
  o = Ok tt /\
  obj = [(PStr "Id", PStr "001A"); (PStr "Name", PStr "Acme"); (PStr "OwnerId", user_ann)] /\
  (forall u, user_ann = PDict u -> dict_get u (PStr "Account__c") = Some (PStr "001A")) /\
  queries pyval w = ["SELECT Id, Name, ManagerId, Account__c FROM User WHERE Id = '005A'"].
Proof.
  vm_compute. split; [reflexivity|]. split; [reflexivity|]. split; [|reflexivity].
  intros u [= <-]. reflexivity.
Qed.

(** C1 (as stated) fails: [OwnerId] held the id ["005A"] before the call
    and holds the fetched user record after it. *)
Lemma resolve_references_overwrites_owner_id :
  dict_get case_record (PStr "OwnerId") = Some (PStr "005A") /\
  dict_get (resolved_record demo_query_all pyval py_repr (PStr "Case") None
                            case_record demo_world)
           (PStr "OwnerId") = Some user_ann.
Proof. split; vm_compute; reflexivity. Qed.

(** [Parent__c] keeps its id. *)
Lemma resolve_references_keeps_parent_c :
  (exists name, PStr "Parent__c" = PStr name /\ str_contains "__c" name = true) /\
  dict_get (resolved_record demo_query_all pyval py_repr (PStr "Case") None
                            case_record demo_world)
           (PStr "Parent__c") = Some (PStr "001A").
Proof.
  split.
  - exists "Parent__c". split; reflexivity.
  - etransitivity.
    + apply (resolve_references_keeps_other_keys demo_query_all pyval py_repr).
      left. exists "Parent__c". split; reflexivity.
    + reflexivity.
Defined.

(** The executor raises on the query for the backup contact: the loop
    goes on with [Escalated_To__c]. *)
Lemma resolve_references_skips_backup_contact :
  let items := reference_fields pyval demo_world (PStr "Case") in
  let after_pre :=
    resolve_fields demo_query_all pyval py_repr None (firstn 2 items) case_record demo_world in
  demo_query_all "SELECT Id, Name FROM Contact WHERE Id = '003A'" = QRaise /\
  exists w2,
    object_definitions pyval w2 = object_definitions pyval (snd (snd after_pre)) /\
    resolve_references demo_query_all pyval py_repr (PStr "Case") None (case_record, demo_world)
    = resolve_fields demo_query_all pyval py_repr None (skipn 3 items)
        (fst (snd after_pre)) w2.
Proof.
  cbv zeta. split; [reflexivity|].
  apply (proj2 (resolve_references_skips_failed_fetch demo_query_all pyval py_repr
                  (PStr "Case") None case_record demo_world)
           (firstn 2 (reference_fields pyval demo_world (PStr "Case")))
           (PStr "Backup__c")
           (snd (nth 2 (reference_fields pyval demo_world (PStr "Case")) (PNone, PNone)))
           (skipn 3 (reference_fields pyval demo_world (PStr "Case")))
           _ _ (PStr "Contact")).
  - vm_compute. reflexivity.
  - vm_compute. reflexivity.
  - vm_compute. reflexivity.
  - apply (fails_raised _ _ _ _ _ "SELECT Id, Name FROM Contact WHERE Id = '003A'");
      vm_compute; reflexivity.
Defined.

(** [Escalated_To__c] is [None] in the case: it is passed over. *)
Lemma resolve_references_skips_empty_escalation :
  let items := reference_fields pyval demo_world (PStr "Case") in
  let after_pre :=
    resolve_fields demo_query_all pyval py_repr None (firstn 3 items) case_record demo_world in
  dict_get (fst (snd after_pre)) (PStr "Escalated_To__c") = Some PNone /\
  resolve_references demo_query_all pyval py_repr (PStr "Case") None (case_record, demo_world)
  = resolve_fields demo_query_all pyval py_repr None [] (fst (snd after_pre)) (snd (snd after_pre)).
Proof.
  cbv zeta. split; [vm_compute; reflexivity|].
  apply (resolve_references_skips_falsy demo_query_all pyval py_repr
           (PStr "Case") None case_record demo_world
           (firstn 3 (reference_fields pyval demo_world (PStr "Case")))
           (PStr "Escalated_To__c")
           (snd (nth 3 (reference_fields pyval demo_world (PStr "Case")) (PNone, PNone)))
           []).
  - vm_compute. reflexivity.
  - vm_compute. reflexivity.
  - right. left. vm_compute. reflexivity.
Defined.

(** ** The query builder on the sample org *)

Definition account_schema : dict :=
  default [] (object_definitions pyval demo_world !! "Account").

(** The query for every account, and for the accounts named Acme. *)
Example get_object_account :
  get_object demo_query_all pyval py_repr (PStr "Account") None demo_world
  = (Ok [account_acme], log_query pyval "SELECT Id, Name, OwnerId FROM Account" demo_world).
Proof. vm_compute. reflexivity. Qed.

Lemma get_object_account_query :
  (object_definitions pyval demo_world !! "Account" = Some account_schema /\
   account_schema <> [] /\
   List.map fst account_schema = List.map PStr ["Id"; "Name"; "OwnerId"]) /\
  exists query,
    get_object demo_query_all pyval py_repr (PStr "Account") (Some "Name = 'Acme'") demo_world
    = (Ok (query_records demo_query_all query), log_query pyval query demo_world) /\
    query = "SELECT Id, Name, OwnerId FROM Account WHERE Name = 'Acme'".
Proof.
  assert (object_definitions pyval demo_world !! "Account" = Some account_schema) as H1
    by (vm_compute; reflexivity).
  assert (account_schema <> []) as H2 by (vm_compute; discriminate).
  assert (List.map fst account_schema = List.map PStr ["Id"; "Name"; "OwnerId"]) as H3
    by (vm_compute; reflexivity).
  split; [auto|].
  destruct (get_object_select_query demo_query_all pyval py_repr
              "Account" account_schema ["Id"; "Name"; "OwnerId"] (Some "Name = 'Acme'")
              demo_world H1 H2 H3) as (query & Hrun & _ & _ & Hwhere).
  exists query. split; [exact Hrun|].
  rewrite (Hwhere "Name = 'Acme'" eq_refl); [reflexivity|discriminate].
Defined.

(** No account has the id asked for: the executor answers with no
    records and [get_object_by_id] returns [None]. *)
Example get_object_by_id_not_found :
  get_object_by_id demo_query_all pyval py_repr (PStr "Account") (PStr "001x0000003DGT2AAC")
    demo_world
  = (Ok PNone,
     log_query pyval "SELECT Id, Name, OwnerId FROM Account WHERE Id = '001x0000003DGT2AAC'"
       demo_world).
Proof. vm_compute. reflexivity. Qed.

Example get_object_by_id_found :
  fst (get_object_by_id demo_query_all pyval py_repr (PStr "Account") (PStr "001A") demo_world)
  = Ok account_acme.
Proof. vm_compute. reflexivity. Qed.

(** No schema is loaded for Opportunity. *)
Example get_object_by_id_not_loaded :
  get_object_by_id demo_query_all pyval py_repr (PStr "Opportunity") (PStr "006A") demo_world
  = (Ok PNone, demo_world).
Proof. vm_compute. reflexivity. Qed.

(** ** Loading on the sample org *)

(** The world after [load_object_definitions(['Lead'])]. *)
Definition lead_world : world pyval :=
  snd (demo_load (Some ["Lead"]) None None empty_world).

(** C4 (what the code does): in live mode the raw field of Lead without a
    ['name'] is not dropped; it is in the schema under the key [None]. *)
Theorem live_load_keeps_field_without_name :
  demo_load (Some ["Lead"]) None None empty_world = (Ok tt, lead_world) /\
  List.map fst <$> (object_definitions pyval lead_world !! "Lead")
  = Some [PNone; PStr "Id"] /\
  (dict_get (default [] (object_definitions pyval lead_world !! "Lead")) PNone
   ≫= fun info => match info with PDict d => dict_get d (PStr "label") | _ => None end)
  = Some (PStr "Mystery").
Proof. vm_compute. repeat split. Qed.

(** With that schema [get_object] cannot join the field names. *)
Example get_object_lead_raises :
  get_object demo_query_all pyval py_repr (PStr "Lead") None lead_world
  = (Raise TypeError, lead_world).
Proof. vm_compute. reflexivity. Qed.

(** The world after
    [load_object_definitions(['Case', 'Account'], output='cache')]. *)
Definition cached_world : world pyval :=
  snd (demo_load (Some ["Case"; "Account"]) None (Some "cache") empty_world).

(** A new process that finds the folder [cache]. *)
Definition restarted_world : world pyval :=
  World pyval ∅ (files pyval cached_world) [].

(** Case, loaded live and written to [cache], then loaded from [cache]. *)
Lemma live_then_snapshot_case :
  ((forall fields, live_fields (describe_object demo_describe (PStr "Case")) = Ok fields ->
                   demo_safe_load (demo_dump (PList fields)) = Some (PList fields)) /\
   "cache" <> "" /\
   has_magic "cache" = false /\
   listed "Case" = true /\
   In (PStr "Case") (object_names demo_describe_global (Some ["Case"; "Account"])) /\
   truthy (describe_object demo_describe (PStr "Case")) = true /\
   demo_load (Some ["Case"; "Account"]) None (Some "cache") empty_world = (Ok tt, cached_world) /\
   filtered_out (Some ["Case"]) "Case" = false) /\
  exists schema c1,
    demo_load (Some ["Case"]) (Some "cache") None restarted_world = (Ok tt, c1) /\
    get_object_fields pyval (PStr "Case") cached_world = (Ok (Some schema), cached_world) /\
    get_object_fields pyval (PStr "Case") c1 = (Ok (Some schema), c1).
Proof.
  assert (forall fields, live_fields (describe_object demo_describe (PStr "Case")) = Ok fields ->
                         demo_safe_load (demo_dump (PList fields)) = Some (PList fields))
    as H1 by reflexivity.
  assert ("cache" <> "") as H0 by discriminate.
  assert (In (PStr "Case") (object_names demo_describe_global (Some ["Case"; "Account"])))
    as H2 by (left; reflexivity).
  assert (truthy (describe_object demo_describe (PStr "Case")) = true) as H3 by reflexivity.
  assert (demo_load (Some ["Case"; "Account"]) None (Some "cache") empty_world
          = (Ok tt, cached_world)) as H4 by (vm_compute; reflexivity).
  assert (filtered_out (Some ["Case"]) "Case" = false) as H5 by reflexivity.
  split; [exact (conj H1 (conj H0 (conj eq_refl (conj eq_refl (conj H2 (conj H3
                   (conj H4 H5)))))))|].
  exact (live_then_snapshot_same_schema demo_describe demo_describe_global pyval
           demo_dump demo_safe_load demo_glob_match "Case" "cache" (Some ["Case"; "Account"])
           "Case" [] None empty_world cached_world restarted_world
           H1 H0 eq_refl eq_refl H2 H3 H4 H5 eq_refl).
Defined.

(** The same load with the folder [cache[1]]: live mode makes the folder
    and writes [Case.yaml] into it. *)
Definition bracket_world : world pyval :=
  snd (demo_load (Some ["Case"]) None (Some "cache[1]") empty_world).

(** A new process that finds the folders as they were left. *)
Definition bracket_restarted : world pyval :=
  World pyval ∅ (files pyval bracket_world) [].

(** C2 (what the code does): live mode loads Case and writes its snapshot
    to the folder [cache[1]]; snapshot mode, given the same folder, reads
    the path as a pattern, which the folder does not match: it returns
    with nothing loaded, and Case has no schema. *)
Theorem live_then_snapshot_bracket_folder :
  demo_load (Some ["Case"]) None (Some "cache[1]") empty_world = (Ok tt, bracket_world) /\
  (exists schema, get_object_fields pyval (PStr "Case") bracket_world
                  = (Ok (Some schema), bracket_world)) /\
  List.map fst (map_to_list (default ∅ (files pyval bracket_world !! "cache[1]"))) = ["Case"] /\
  listed "Case" = true /\
  demo_load (Some ["Case"]) (Some "cache[1]") None bracket_restarted
    = (Ok tt, bracket_restarted) /\
  get_object_fields pyval (PStr "Case") bracket_restarted = (Ok None, bracket_restarted).
Proof.
  split; [vm_compute; reflexivity|].
  split; [eexists; vm_compute; reflexivity|].
  split; [vm_compute; reflexivity|].
  split; [reflexivity|].
  split; vm_compute; reflexivity.
Qed.

(** The picklist values of Status come back from the snapshot in the
    order of the provider. *)
Example snapshot_keeps_picklist_order :
  (dict_get (default [] (object_definitions pyval
                           (snd (demo_load (Some ["Case"]) (Some "cache") None restarted_world))
                         !! "Case")) (PStr "Status")
   ≫= fun info => match info with PDict d => dict_get d (PStr "picklistValues") | _ => None end)
  = Some (PList [PStr "New"; PStr "Working"; PStr "Closed"]).
Proof. vm_compute. reflexivity. Qed.

(** With [names] left out, snapshot mode loads nothing from [cache]; with
    [names=None] it loads the snapshots. *)
Example snapshot_load_names_left_out :
  object_definitions pyval (snd (demo_load names_default (Some "cache") None restarted_world))
  = ∅ /\
  List.map fst <$>
    (object_definitions pyval (snd (demo_load None (Some "cache") None restarted_world))
     !! "Account")
  = Some [PStr "Id"; PStr "Name"; PStr "OwnerId"].
Proof. split; vm_compute; reflexivity. Qed.

(** ** Resolving twice on the sample org *)

(** The case after a first [resolve_references(case, 'Case')]. *)
Definition resolved_case : dict :=
  fst (snd (demo_resolve "Case" None case_record demo_world)).

Definition resolved_case_world : world pyval :=
  snd (snd (demo_resolve "Case" None case_record demo_world)).


(** ** Fields with linked names *)

(** A visit whose schema holds a reference field [Host__r] beside
    [Host__c], and a referral that refers to a lead and to an account. *)
Definition visit_fields : list pyval :=
  [raw_field "Id" "Visit ID" "id" [] [];
   raw_field "Host__c" "Host" "reference" ["Account"] [];
   raw_field "Host__r" "Host user" "reference" ["User"] []].

Definition referral_fields : list pyval :=
  [raw_field "Id" "Referral ID" "id" [] [];
   raw_field "Lead__c" "Lead" "reference" ["Lead"] [];
   raw_field "Parent__c" "Parent" "reference" ["Account"] []].

Definition linked_describe (name : string) : option pyval :=
  if String.eqb name "Visit" then Some (describe_result visit_fields)
  else if String.eqb name "Referral" then Some (describe_result referral_fields)
  else demo_describe name.

Definition linked_load (names : option (list string)) : world pyval :=
  snd (load_object_definitions linked_describe demo_describe_global pyval demo_dump
         demo_safe_load demo_glob_match names None None empty_world).

(** The world after [load_object_definitions(['Visit', 'Account', 'User'])]. *)
Definition visit_world : world pyval := linked_load (Some ["Visit"; "Account"; "User"]).

Definition visit_record : dict :=
  [(PStr "Id", PStr "a00A"); (PStr "Host__c", PStr "001A")].

(** C3 (as stated) fails: the visit holds a value for one reference field,
    [Host__c], and two queries are sent: the account fetched for [Host__c]
    is stored under [Host__r], which is a reference field too and is
    reached next. *)
Lemma resolve_references_fetches_twice :
  List.map fst (populated visit_record (reference_fields pyval visit_world (PStr "Visit")))
    = [PStr "Host__c"] /\
  queries pyval visit_world = [] /\
  fst (resolve_references demo_query_all pyval py_repr (PStr "Visit") None
         (visit_record, visit_world)) = Ok tt /\
  List.length
    (queries pyval
       (snd (snd (resolve_references demo_query_all pyval py_repr (PStr "Visit") None
                    (visit_record, visit_world))))) = 2%nat /\
  hd_error
    (queries pyval
       (snd (snd (resolve_references demo_query_all pyval py_repr (PStr "Visit") None
                    (visit_record, visit_world)))))
    = Some "SELECT Id, Name, OwnerId FROM Account WHERE Id = '001A'" /\
  dict_get
    (fst (snd (resolve_references demo_query_all pyval py_repr (PStr "Visit") None
                 (visit_record, visit_world))))
    (PStr "Host__r") = Some account_acme.
Proof. vm_compute. repeat split. Qed.

(** On the case: three queries for the three fields the case holds a value
    for, and the account is embedded under [Parent__r] as it was fetched,
    the id of its owner in place. *)
Lemma resolve_references_case_single_level :
  exists o obj' w' sent,
    resolve_references demo_query_all pyval py_repr (PStr "Case") None (case_record, demo_world)
      = (o, (obj', w')) /\
    queries pyval w' = queries pyval demo_world ++ sent /\
    (List.length sent <= 3)%nat /\
    dict_get obj' (PStr "Parent__r") = Some account_acme /\
    (account_acme = PDict [(PStr "Id", PStr "001A"); (PStr "Name", PStr "Acme");
                           (PStr "OwnerId", PStr "005A")]).
Proof.
  destruct (resolve_references_single_level demo_query_all pyval py_repr
              (PStr "Case") None case_record demo_world)
    as (o & obj' & w' & sent & Hrun & _ & Hq & _ & Hcount & _ & _ & Hembed).
  exists o, obj', w', sent.
  split; [exact Hrun|]. split; [exact Hq|].
  split.
  { specialize (Hcount eq_refl).
    change (List.length (populated case_record
                           (reference_fields pyval demo_world (PStr "Case"))))
      with 3%nat in Hcount. exact Hcount. }
  split; [|reflexivity].
  assert (o = Ok tt) as Ho by (vm_compute in Hrun; congruence).
  assert (List.NoDup (resolved_names (reference_fields pyval demo_world (PStr "Case")))) as H2.
  { vm_compute.
    repeat (constructor;
            [intros H; repeat (destruct H as [H|H]; [discriminate H|]); exact H|]).
    constructor. }
  apply (Hembed Ho H2 "Parent__c"
           (snd (nth 1 (reference_fields pyval demo_world (PStr "Case")) (PNone, PNone)))
           (PStr "Account") account_acme).
  - vm_compute. right. left. reflexivity.
  - reflexivity.
  - reflexivity.
  - vm_compute. reflexivity.
  - vm_compute. reflexivity.
  - reflexivity.
Defined.

(** The world after [load_object_definitions(['Referral', 'Lead', 'Account'])]:
    the schema of Lead holds the key [None]. *)
Definition referral_world : world pyval := linked_load (Some ["Referral"; "Lead"; "Account"]).

Definition referral_record : dict :=
  [(PStr "Id", PStr "a01A"); (PStr "Lead__c", PStr "00QA"); (PStr "Parent__c", PStr "001A")].

(** C7 (as stated) fails: the fetch of the lead fails with [TypeError],
    the field names of Lead cannot be joined; [resolve_references] raises
    it, and [Parent__c], which resolves when asked for alone, is not
    reached. *)
Lemma resolve_references_aborts_on_lead :
  List.map fst (reference_fields pyval referral_world (PStr "Referral"))
    = [PStr "Lead__c"; PStr "Parent__c"] /\
  fetch demo_query_all py_repr (object_definitions pyval referral_world) (PStr "Lead")
    (PStr "00QA") = Raise TypeError /\
  resolve_references demo_query_all pyval py_repr (PStr "Referral") None
    (referral_record, referral_world)
    = (Raise TypeError, (referral_record, referral_world)) /\
  dict_get referral_record (PStr "Parent__r") = None /\
  fst (resolve_references demo_query_all pyval py_repr (PStr "Referral") (Some ["Parent__c"])
         (referral_record, referral_world)) = Ok tt /\
  dict_get
    (fst (snd (resolve_references demo_query_all pyval py_repr (PStr "Referral")
                 (Some ["Parent__c"]) (referral_record, referral_world))))
    (PStr "Parent__r") = Some account_acme.
Proof. vm_compute. repeat split. Qed.

(** * Further properties on the sample org *)

(** An object whose raw fields hold a string, and a note whose body has
    no label. *)
Definition odd_describe (name : string) : option pyval :=
  if String.eqb name "Broken" then Some (describe_result [PStr "oops"])
  else if String.eqb name "Note" then
    Some (describe_result
            [raw_field "Id" "Note ID" "id" [] [];
             PDict [(PStr "name", PStr "Body"); (PStr "type", PStr "textarea")]])
  else demo_describe name.

Definition odd_load (names : option (list string)) (cache_folder output : option string)
    : M (world pyval) unit :=
  load_object_definitions odd_describe demo_describe_global pyval demo_dump demo_safe_load
    demo_glob_match names cache_folder output.

(** ** Loading *)

(** The provider does not know Nope. *)
Lemma live_load_skips_unknown_object :
  (truthy (describe_object demo_describe (PStr "Nope")) = false /\
   ["Account"] ++ ["User"] <> []) /\
  demo_load (Some (["Account"] ++ "Nope" :: ["User"])) None None empty_world
  = demo_load (Some (["Account"] ++ ["User"])) None None empty_world.
Proof.
  assert (truthy (describe_object demo_describe (PStr "Nope")) = false) as H1 by reflexivity.
  assert (["Account"] ++ ["User"] <> []) as H2 by discriminate.
  split; [auto|].
  apply (live_load_skips_failed_describe demo_describe demo_describe_global pyval
           demo_dump demo_safe_load demo_glob_match ["Account"] ["User"] "Nope" None empty_world H1 H2).
Defined.

Lemma live_load_gives_account_schema :
  (In (PStr "Account") (object_names demo_describe_global
                          (Some ["Case"; "Account"; "User"; "Contact"])) /\
   truthy (describe_object demo_describe (PStr "Account")) = true /\
   demo_load (Some ["Case"; "Account"; "User"; "Contact"]) None None empty_world
   = (Ok tt, demo_world)) /\
  exists fields schema,
    live_fields (describe_object demo_describe (PStr "Account")) = Ok fields /\
    schema_of_fields fields = Ok schema /\
    get_object_fields pyval (PStr "Account") demo_world = (Ok (Some schema), demo_world).
Proof.
  assert (In (PStr "Account") (object_names demo_describe_global
                                 (Some ["Case"; "Account"; "User"; "Contact"]))) as H1
    by (right; left; reflexivity).
  assert (truthy (describe_object demo_describe (PStr "Account")) = true) as H2 by reflexivity.
  assert (demo_load (Some ["Case"; "Account"; "User"; "Contact"]) None None empty_world
          = (Ok tt, demo_world)) as H3 by (vm_compute; reflexivity).
  split; [auto|].
  apply (live_load_gives_schema demo_describe demo_describe_global pyval demo_dump
           demo_safe_load demo_glob_match (Some ["Case"; "Account"; "User"; "Contact"]) None "Account"
           empty_world demo_world H1 H2 H3).
Defined.

(** The world after [load_object_definitions(['Account'])]. *)
Definition account_world : world pyval :=
  snd (odd_load (Some ["Account"]) None None empty_world).

(** Broken stops the load: Account is loaded, User is not. *)
Lemma live_load_aborts_on_broken :
  (for_each (load_live_object odd_describe pyval demo_dump None) (List.map PStr ["Account"])
     empty_world = (Ok tt, account_world) /\
   truthy (describe_object odd_describe (PStr "Broken")) = true /\
   live_fields (describe_object odd_describe (PStr "Broken")) = Raise AttributeError) /\
  odd_load (Some (["Account"] ++ "Broken" :: ["User"])) None None empty_world
  = (Raise AttributeError, account_world) /\
  object_definitions pyval account_world !! "User" = None.
Proof.
  assert (for_each (load_live_object odd_describe pyval demo_dump None)
            (List.map PStr ["Account"]) empty_world = (Ok tt, account_world)) as H1
    by (vm_compute; reflexivity).
  assert (truthy (describe_object odd_describe (PStr "Broken")) = true) as H2 by reflexivity.
  assert (live_fields (describe_object odd_describe (PStr "Broken")) = Raise AttributeError)
    as H3 by reflexivity.
  split; [auto|]. split; [|vm_compute; reflexivity].
  apply (live_load_aborts_on_malformed_object odd_describe demo_describe_global pyval
           demo_dump demo_safe_load demo_glob_match ["Account"] ["User"] "Broken" None
           empty_world account_world AttributeError H1 H2 H3).
Defined.

(** The folder [cache] with one more file, which holds a string. *)
Definition spoiled_world : world pyval :=
  write_yaml pyval "cache" "Bad" (PStr "not a list") restarted_world.

Lemma snapshot_load_skips_bad_file :
  (has_magic "cache" = false /\
   default ∅ (files pyval spoiled_world !! "cache") !! "Bad" = Some (PStr "not a list") /\
   match demo_safe_load (PStr "not a list") with
   | Some (PList fields) => exists e, schema_of_fields fields = Raise e
   | _ => True
   end) /\
  exists w',
    demo_load (Some ["Bad"; "Account"]) (Some "cache") None spoiled_world = (Ok tt, w') /\
    object_definitions pyval w' !! "Bad" = object_definitions pyval spoiled_world !! "Bad".
Proof.
  assert (default ∅ (files pyval spoiled_world !! "cache") !! "Bad" = Some (PStr "not a list"))
    as H1 by (vm_compute; reflexivity).
  split; [split; [reflexivity|split; [exact H1|exact I]]|].
  exact (snapshot_load_skips_unusable_snapshot demo_describe demo_describe_global pyval
           demo_dump demo_safe_load demo_glob_match "Bad" ["Account"] "cache" None "Bad"
           (PStr "not a list") spoiled_world eq_refl H1 I).
Defined.

(** The fields live mode wrote for Account. *)
Definition account_snapshot : list pyval :=
  match default ∅ (files pyval spoiled_world !! "cache") !! "Account" with
  | Some (PList fields) => fields
  | _ => []
  end.

Lemma snapshot_load_gives_account_schema :
  (has_magic "cache" = false /\
   listed "Account" = true /\
   default ∅ (files pyval spoiled_world !! "cache") !! "Account"
     = Some (PList account_snapshot) /\
   filtered_out (Some ["Bad"; "Account"]) "Account" = false /\
   demo_safe_load (PList account_snapshot) = Some (PList account_snapshot) /\
   schema_of_fields account_snapshot = Ok account_schema) /\
  exists w',
    demo_load (Some ["Bad"; "Account"]) (Some "cache") None spoiled_world = (Ok tt, w') /\
    get_object_fields pyval (PStr "Account") w' = (Ok (Some account_schema), w').
Proof.
  assert (default ∅ (files pyval spoiled_world !! "cache") !! "Account"
          = Some (PList account_snapshot)) as H1 by (vm_compute; reflexivity).
  assert (schema_of_fields account_snapshot = Ok account_schema) as H2
    by (vm_compute; reflexivity).
  split; [exact (conj eq_refl (conj eq_refl (conj H1 (conj eq_refl (conj eq_refl H2)))))|].
  exact (snapshot_load_gives_schema demo_describe demo_describe_global pyval
           demo_dump demo_safe_load demo_glob_match "Bad" ["Account"] "cache" None "Account"
           (PList account_snapshot) account_snapshot account_schema spoiled_world
           eq_refl eq_refl H1 eq_refl eq_refl H2).
Defined.

(** ** Descriptors and schemas *)

(** A polymorphic owner: of the two targets the first is kept. *)
Lemma field_info_polymorphic_owner :
  let raw := [(PStr "name", PStr "WhoId"); (PStr "referenceTo", PList [PStr "Contact"; PStr "Lead"]);
              (PStr "picklistValues",
               PList [PDict [(PStr "value", PStr "b")]; PDict [(PStr "value", PStr "a")]])] in
  field_info (PDict raw)
  = Ok (PDict [(PStr "name", PStr "WhoId"); (PStr "label", PNone); (PStr "type", PNone);
               (PStr "reference", PStr "Contact"); (PStr "length", PNone);
               (PStr "picklistValues", PList [PStr "b"; PStr "a"])]).
Proof.
  cbv zeta.
  exact (field_info_normalises
           [(PStr "name", PStr "WhoId");
            (PStr "referenceTo", PList [PStr "Contact"; PStr "Lead"]);
            (PStr "picklistValues",
             PList [PDict [(PStr "value", PStr "b")]; PDict [(PStr "value", PStr "a")]])]
           [PStr "Contact"; PStr "Lead"]
           [PDict [(PStr "value", PStr "b")]; PDict [(PStr "value", PStr "a")]]
           [PStr "b"; PStr "a"] eq_refl eq_refl eq_refl).
Defined.

(** Two raw fields named Id: the name keeps the first place and stands for
    the second field. *)
Lemma schema_of_fields_duplicate_id :
  let first := PDict [(PStr "name", PStr "Id"); (PStr "label", PStr "first")] in
  let other := PDict [(PStr "name", PStr "Name")] in
  let second := PDict [(PStr "name", PStr "Id"); (PStr "label", PStr "second")] in
  schema_of_fields [first; other; second]
    = Ok [(PStr "Id", second); (PStr "Name", other)] /\
  dict_get [(PStr "Id", second); (PStr "Name", other)] (PStr "Id") = Some second.
Proof.
  cbv zeta. split; [reflexivity|].
  exact (schema_of_fields_last_wins
           [PDict [(PStr "name", PStr "Id"); (PStr "label", PStr "first")];
            PDict [(PStr "name", PStr "Name")];
            PDict [(PStr "name", PStr "Id"); (PStr "label", PStr "second")]]
           [(PStr "Id", PDict [(PStr "name", PStr "Id"); (PStr "label", PStr "second")]);
            (PStr "Name", PDict [(PStr "name", PStr "Name")])]
           (PStr "Id") eq_refl).
Defined.

(** ** Reference fields and queries *)

Definition case_schema : dict :=
  default [] (object_definitions pyval demo_world !! "Case").

Lemma case_schema_well_formed : well_formed_schema case_schema.
Proof.
  split.
  - vm_compute.
    repeat (constructor;
            [intros H; repeat (destruct H as [H|H]; [discriminate H|]); exact H|]).
    constructor.
  - intros k field Hin. vm_compute in Hin.
    repeat (destruct Hin as [Hin|Hin];
            [injection Hin as <- <-; eexists; eexists;
             split; [reflexivity|]; split; reflexivity|]).
    destruct Hin.
Defined.

(** The reference fields of Case, in the order of its schema. *)
Lemma get_object_references_case :
  (object_definitions pyval demo_world !! "Case" = Some case_schema /\
   well_formed_schema case_schema) /\
  get_object_references pyval (PStr "Case") demo_world
    = (Ok (List.filter has_reference case_schema), demo_world) /\
  List.map fst (List.filter has_reference case_schema)
    = [PStr "OwnerId"; PStr "Parent__c"; PStr "Backup__c"; PStr "Escalated_To__c"].
Proof.
  assert (object_definitions pyval demo_world !! "Case" = Some case_schema) as H1
    by (vm_compute; reflexivity).
  split; [split; [exact H1|exact case_schema_well_formed]|].
  split; [|vm_compute; reflexivity].
  apply (get_object_references_filters pyval "Case" case_schema demo_world H1
           case_schema_well_formed).
Defined.

(** An id with a quote goes into the query as it is. *)
Lemma get_object_by_id_quote :
  (object_definitions pyval demo_world !! "Account" = Some account_schema /\
   account_schema <> [] /\
   List.map fst account_schema = List.map PStr ["Id"; "Name"; "OwnerId"]) /\
  get_object_by_id demo_query_all pyval py_repr (PStr "Account") (PStr "x' OR Name != '")
    demo_world
  = (Ok (hd PNone (query_records demo_query_all
                     "SELECT Id, Name, OwnerId FROM Account WHERE Id = 'x' OR Name != ''")),
     log_query pyval "SELECT Id, Name, OwnerId FROM Account WHERE Id = 'x' OR Name != ''"
       demo_world).
Proof.
  assert (object_definitions pyval demo_world !! "Account" = Some account_schema) as H1
    by (vm_compute; reflexivity).
  assert (account_schema <> []) as H2 by (vm_compute; discriminate).
  assert (List.map fst account_schema = List.map PStr ["Id"; "Name"; "OwnerId"]) as H3
    by (vm_compute; reflexivity).
  split; [auto|].
  exact (get_object_by_id_query demo_query_all pyval py_repr "Account" account_schema
           ["Id"; "Name"; "OwnerId"] (PStr "x' OR Name != '") demo_world H1 H2 H3).
Defined.

(** ** The resolver *)

(** [resolve_references(case, 'Case', refs=[])] resolves nothing. *)
Lemma resolve_references_empty_refs :
  (get_object_references pyval (PStr "Case") demo_world
     = (Ok (reference_fields pyval demo_world (PStr "Case")), demo_world) /\
   forall k field, In (k, field) (reference_fields pyval demo_world (PStr "Case")) ->
                   not_requested (Some []) k = true) /\
  resolve_references demo_query_all pyval py_repr (PStr "Case") (Some [])
    (case_record, demo_world) = (Ok tt, (case_record, demo_world)).
Proof.
  assert (get_object_references pyval (PStr "Case") demo_world
          = (Ok (reference_fields pyval demo_world (PStr "Case")), demo_world)) as H1
    by (vm_compute; reflexivity).
  assert (forall k field, In (k, field) (reference_fields pyval demo_world (PStr "Case")) ->
                          not_requested (Some []) k = true) as H2
    by (intros; reflexivity).
  split; [auto|].
  apply (resolve_references_unrequested demo_query_all pyval py_repr (PStr "Case") (Some [])
           case_record demo_world _ H1 H2).
Defined.

(** The parent account is embedded under [Parent__r]. *)
Lemma resolve_references_embeds_parent :
  let items := reference_fields pyval demo_world (PStr "Case") in
  let info := snd (nth 1 items (PNone, PNone)) in
  (get_object_references pyval (PStr "Case") demo_world = (Ok items, demo_world) /\
   In (PStr "Parent__c", info) items /\
   List.NoDup (resolved_names items) /\
   not_requested None (PStr "Parent__c") = false /\
   truthy (field_value case_record (PStr "Parent__c")) = true /\
   py_getitem info (PStr "reference") = Ok (PStr "Account") /\
   fetch demo_query_all py_repr (object_definitions pyval demo_world) (PStr "Account")
     (field_value case_record (PStr "Parent__c")) = Ok account_acme /\
   truthy account_acme = true /\
   resolve_references demo_query_all pyval py_repr (PStr "Case") None (case_record, demo_world)
     = (Ok tt, (resolved_case, resolved_case_world))) /\
  dict_get resolved_case (PStr "Parent__r") = Some account_acme.
Proof.
  cbv zeta.
  assert (get_object_references pyval (PStr "Case") demo_world
          = (Ok (reference_fields pyval demo_world (PStr "Case")), demo_world)) as H1
    by (vm_compute; reflexivity).
  assert (In (PStr "Parent__c",
              snd (nth 1 (reference_fields pyval demo_world (PStr "Case")) (PNone, PNone)))
             (reference_fields pyval demo_world (PStr "Case"))) as H2
    by (vm_compute; right; left; reflexivity).
  assert (List.NoDup (resolved_names (reference_fields pyval demo_world (PStr "Case")))) as H3.
  { vm_compute.
    repeat (constructor;
            [intros H; repeat (destruct H as [H|H]; [discriminate H|]); exact H|]).
    constructor. }
  assert (fetch demo_query_all py_repr (object_definitions pyval demo_world) (PStr "Account")
            (field_value case_record (PStr "Parent__c")) = Ok account_acme) as H4
    by (vm_compute; reflexivity).
  assert (py_getitem (snd (nth 1 (reference_fields pyval demo_world (PStr "Case"))
                             (PNone, PNone))) (PStr "reference") = Ok (PStr "Account")) as H5
    by (vm_compute; reflexivity).
  assert (resolve_references demo_query_all pyval py_repr (PStr "Case") None
            (case_record, demo_world) = (Ok tt, (resolved_case, resolved_case_world))) as H6
    by (vm_compute; reflexivity).
  split; [exact (conj H1 (conj H2 (conj H3 (conj eq_refl (conj eq_refl
                  (conj H5 (conj H4 (conj eq_refl H6))))))))|].
  exact (resolve_references_embeds demo_query_all pyval py_repr (PStr "Case") None
           case_record resolved_case demo_world resolved_case_world _ "Parent__c" _
           (PStr "Account") account_acme H1 H2 H3 eq_refl eq_refl H5 H4 eq_refl H6).
Defined.

(** ** Printing *)

Definition demo_print (obj : dict) (object_name : string) (indent : Z) (w : world pyval)
    : option (outcome unit * list string) :=
  match pretty_print_object pyval py_repr obj (PStr object_name) indent w with
  | Some program => Some (program [])
  | None => None
  end.

(** The case, printed with an indent of two: the fields come by label. *)
Example pretty_print_case :
  demo_print case_record "Case" 2 demo_world
  = Some (Ok tt,
          ["  ---- Object: Case ----";
           "  Backup (Backup__c): 003A";
           "  Case ID (Id): 500A";
           "  Escalated To (Escalated_To__c): None";
           "  Owner ID (OwnerId): 005A";
           "  Parent (Parent__c): 001A";
           "  Status (Status): New";
           "  Subject (Subject): Printer on fire"]).
Proof. vm_compute. reflexivity. Qed.

Lemma case_fields_printable :
  List.Forall printable_field (List.map snd case_schema) /\
  List.Forall (fun field => exists label, sort_key field = Ok (PStr label))
              (List.map snd case_schema).
Proof.
  split; vm_compute.
  - repeat (constructor; [eexists; eexists; split; [reflexivity|]; split; reflexivity|]).
    constructor.
  - repeat (constructor; [eexists; reflexivity|]). constructor.
Defined.

Lemma pretty_print_case_sorted :
  (object_definitions pyval demo_world !! "Case" = Some case_schema /\
   case_schema <> [] /\
   List.Forall printable_field (List.map snd case_schema) /\
   List.Forall (fun field => exists label, sort_key field = Ok (PStr label))
               (List.map snd case_schema)) /\
  exists program printed lines,
    pretty_print_object pyval py_repr case_record (PStr "Case") 2 demo_world = Some program /\
    program [] = (Ok tt, header_line py_repr (spaces 2) (PStr "Case") :: lines) /\
    omap (field_line py_repr (spaces 2) case_record) printed = Ok lines /\
    Permutation printed (List.map snd case_schema) /\
    Sorted label_le printed.
Proof.
  assert (object_definitions pyval demo_world !! "Case" = Some case_schema) as H1
    by (vm_compute; reflexivity).
  assert (case_schema <> []) as H2 by (vm_compute; discriminate).
  destruct case_fields_printable as [H3 H4].
  split; [auto|].
  exact (pretty_print_object_sorted pyval py_repr case_record "Case" case_schema 2
           demo_world H1 H2 H3 H4).
Defined.

(** The world after [load_object_definitions(['Note'])]: the body of a
    note has the label [None]. *)
Definition note_world : world pyval :=
  snd (odd_load (Some ["Note"]) None None empty_world).

Definition note_schema : dict :=
  default [] (object_definitions pyval note_world !! "Note").

Lemma pretty_print_note_raises :
  (object_definitions pyval note_world !! "Note" = Some note_schema /\
   omap sort_key (List.map snd note_schema) = Ok [PStr "Note ID"; PNone]) /\
  exists program,
    pretty_print_object pyval py_repr [(PStr "Id", PStr "002A")] (PStr "Note") 0 note_world
      = Some program /\
    program [] = (Raise TypeError, ["---- Object: Note ----"]).
Proof.
  assert (object_definitions pyval note_world !! "Note" = Some note_schema) as H1
    by (vm_compute; reflexivity).
  assert (omap sort_key (List.map snd note_schema) = Ok [PStr "Note ID"; PNone]) as H2
    by (vm_compute; reflexivity).
  assert ((2 <= List.length [PStr "Note ID"; PNone])%nat) as H3 by (simpl; lia).
  split; [auto|].
  exact (pretty_print_object_mixed_labels pyval py_repr [(PStr "Id", PStr "002A")]
           "Note" note_schema [PStr "Note ID"; PNone] 0 note_world H1 H2 H3
           eq_refl eq_refl eq_refl).
Defined.

Lemma note_body_has_none_label :
  let raw := [(PStr "name", PStr "Body"); (PStr "type", PStr "textarea")] in
  let info := PDict [(PStr "name", PStr "Body"); (PStr "label", PNone);
                     (PStr "type", PStr "textarea"); (PStr "reference", PNone);
                     (PStr "length", PNone); (PStr "picklistValues", PList [])] in
  (field_info (PDict raw) = Ok info /\ dict_get raw (PStr "label") = None) /\
  sort_key info = Ok PNone.
Proof.
  cbv zeta. split; [split; reflexivity|].
  exact (live_field_without_label_sorts_as_none
           [(PStr "name", PStr "Body"); (PStr "type", PStr "textarea")] _ eq_refl eq_refl).
Defined.
